(** * A shallow embedding of the real-time hub in [src/server.js]

    The file [src/server.js] concatenates successive revisions of one
    WebSocket server; the development below follows the last, hardened
    revision (the one with [pushBounded], [checkRate] and [MAX_CLIENTS]).

    Mutable module state ([clients], [chatHistory], [winHistory],
    [rateLimits], [broadcastTimer], the server's socket set) becomes one
    record that every handler takes and returns.  The clock, the uuid
    generator and the time formatter are read from an explicit
    environment, so handlers are pure functions. *)

From Stdlib Require Import ZArith QArith Qround Lia.
From stdpp Require Import base option list strings gmap.

Set Default Proof Using "Type".
Open Scope Z_scope.

(** ** JavaScript strings *)

(** A JavaScript string is a sequence of UTF-16 code units. *)
Abbreviation jsstring := (list N) (only parsing).

Module JS.

(** What [\s] matches and what [String.prototype.trim] removes (ECMAScript
    WhiteSpace and LineTerminator: the two sets coincide). *)
Definition is_space (c : N) : bool :=
  ((9 <=? c) && (c <=? 13) || (c =? 32) || (c =? 160) || (c =? 5760)
   || (8192 <=? c) && (c <=? 8202) || (c =? 8232) || (c =? 8233)
   || (c =? 8239) || (c =? 8287) || (c =? 12288) || (c =? 65279))%N.

Fixpoint trimStart (s : jsstring) : jsstring :=
  match s with
  | [] => []
  | c :: r => if is_space c then trimStart r else s
  end.

Definition trimEnd (s : jsstring) : jsstring := rev (trimStart (rev s)).

Definition trim (s : jsstring) : jsstring := trimEnd (trimStart s).

(** [str.slice(0, n)] for a non-negative [n]. *)
Definition slice0 (n : nat) (s : jsstring) : jsstring := firstn n s.

(** [arr.slice(-n)]: the last [n] elements. *)
Definition sliceLast {A} (n : nat) (l : list A) : list A :=
  skipn (length l - n) l.

(** [str.replace(/c/g, rep)] for a single code unit [c]. *)
Fixpoint replaceAll (c : N) (rep : jsstring) (s : jsstring) : jsstring :=
  match s with
  | [] => []
  | x :: r => (if (x =? c)%N then rep else [x]) ++ replaceAll c rep r
  end.

(** [str.replace(/[...]/g, '')] for a character class. *)
Definition removeAll (cls : N -> bool) (s : jsstring) : jsstring :=
  List.filter (fun x => negb (cls x)) s.

(** [str.replace(/\s+/g, ' ')]: every maximal run of white space becomes one
    space.  [in_run] records that the previous code unit was white space. *)
Fixpoint collapseFrom (in_run : bool) (s : jsstring) : jsstring :=
  match s with
  | [] => []
  | c :: r =>
      if is_space c
      then (if in_run then collapseFrom true r else 32%N :: collapseFrom true r)
      else c :: collapseFrom false r
  end.

Definition collapseSpaces (s : jsstring) : jsstring := collapseFrom false s.

Fixpoint startsWith (p s : jsstring) : bool :=
  match p, s with
  | [], _ => true
  | _ :: _, [] => false
  | a :: p', b :: s' => (a =? b)%N && startsWith p' s'
  end.

(** [s.includes(p)]. *)
Fixpoint includes (s p : jsstring) : bool :=
  startsWith p s ||
  match s with
  | [] => false
  | _ :: s' => includes s' p
  end.

(** Code units of an ASCII literal. *)
Fixpoint lit (s : string) : jsstring :=
  match s with
  | EmptyString => []
  | String a r => Ascii.N_of_ascii a :: lit r
  end.

(** ** JavaScript numbers and values *)

(** A number is NaN, an infinity or a finite value; the finite doubles are
    rationals, and [Math.floor] of a finite double is its exact floor. *)
Inductive jsnum :=
  | NaN
  | Infinity (negative : bool)
  | Finite (q : Q).

Definition num_ltb (a b : jsnum) : bool :=
  match a, b with
  | NaN, _ | _, NaN => false
  | Infinity true, Infinity true => false
  | Infinity true, _ => true
  | _, Infinity true => false
  | Infinity false, _ => false
  | Finite _, Infinity false => true
  | Finite x, Finite y => negb (Qle_bool y x)
  end.

Definition num_is_nan (a : jsnum) : bool :=
  match a with NaN => true | _ => false end.

(** [a <= b], [a > b], [a >= b]: all false when an operand is NaN. *)
Definition num_leb (a b : jsnum) : bool :=
  negb (num_is_nan a) && negb (num_is_nan b) && negb (num_ltb b a).
Definition num_gtb (a b : jsnum) : bool := num_ltb b a.
Definition num_geb (a b : jsnum) : bool := num_leb b a.

Definition Math_floor (a : jsnum) : jsnum :=
  match a with
  | Finite q => Finite (inject_Z (Qfloor q))
  | _ => a
  end.

Definition of_Z (z : Z) : jsnum := Finite (inject_Z z).

(** The values [JSON.parse] puts in a field, and [undefined] for a missing
    field.  An array or object is kept as the string its [toString] gives,
    which is all that [Number] reads of it. *)
Inductive jsval :=
  | JUndefined
  | JNull
  | JBool (b : bool)
  | JNumber (n : jsnum)
  | JString (s : jsstring)
  | JObject (toStr : jsstring).

Definition truthy (v : jsval) : bool :=
  match v with
  | JUndefined | JNull => false
  | JBool b => b
  | JNumber NaN => false
  | JNumber (Infinity _) => true
  | JNumber (Finite q) => negb (Qeq_bool q 0)
  | JString s => negb (bool_decide (s = []))
  | JObject _ => true
  end.

(** [v || d]. *)
Definition or_else (v d : jsval) : jsval := if truthy v then v else d.

End JS.
Export JS.

(** ** Server state *)

(** The identity of a WebSocket object (what [ws !== excludeWs] compares and
    what keys the [clients] Map), and a value of [uuidv4()]. *)
Abbreviation conn := nat (only parsing).
Abbreviation uuid := nat (only parsing).

Inductive ReadyState := CONNECTING | OPEN | CLOSING | CLOSED.

(** A member of [wss.clients]. *)
Record WebSocket := { wsid : conn; readyState : ReadyState }.

(** A value of the [clients] Map: [{ id, nickname, ip, registered }]. *)
Record ClientInfo := {
  id : uuid;
  nickname : option jsstring;
  ip : jsstring;
  registered : bool }.

(** A value of the [rateLimits] Map: [{ count, t }]. *)
Record RateState := { count : nat; t : Z }.

(** The three template strings of system messages:
    [`🎰 ${nick} присоединился к казино!`],
    [`🎉 ${client.nickname} выиграл $${amount.toLocaleString('en-US')} в ${game}!`]
    and [`👋 ${client.nickname} покинул казино`]. *)
Inductive SystemText :=
  | JoinText (nick : jsstring)
  | BigWinText (nick : option jsstring) (amount : jsnum) (game : jsstring)
  | ByeText (nick : jsstring).

(** The objects kept in [chatHistory] and [winHistory] and broadcast:
    [{type:'chat', id, clientId, nickname, text, time}],
    [{type:'win', clientId, nickname, amount, game, time}] and
    [{type:'system_message', text, time}]. *)
Inductive Entry :=
  | ChatMsg (msgId clientId : uuid) (nick : option jsstring) (text time : jsstring)
  | WinMsg (clientId : uuid) (nick : option jsstring) (amount : jsnum)
           (game time : jsstring)
  | SystemMessage (text : SystemText) (time : jsstring).

(** The messages of [register_error]: ['Минимум 2 символа'],
    ['Максимум 24 символа'], ['Этот никнейм уже занят'],
    ['Этот никнейм запрещён']. *)
Inductive RegisterError := TooShort | TooLong | NickTaken | NickForbidden.

(** The messages of [error]: ['Сначала войдите'], ['Слишком много сообщений']. *)
Inductive ChatError := LoginFirst | TooManyMessages.

(** Outbound frames. *)
Inductive Frame :=
  | Init (clientId : uuid) (chat wins : list Entry) (onlineCount : nat)
  | RegisterOk (nick : jsstring) (clientId : uuid)
  | RegisterErr (message : RegisterError)
  | Event (e : Entry)
  | OnlineCount (n : nat)
  | Pong
  | Err (message : ChatError).

(** What a handler asks of the transport, in program order. *)
Inductive Call :=
  | CSendTo (ws : conn) (data : Frame)
  | CBroadcast (data : Frame) (excludeWs : option conn)
  | CClose (ws : conn) (code : Z) (reason : jsstring).

Record State := {
  wss_clients : list WebSocket;
  clients : gmap conn ClientInfo;
  chatHistory : list Entry;
  winHistory : list Entry;
  rateLimits : gmap uuid RateState;
  broadcastTimer : bool }.

(** What a handler reads from outside: [Date.now()], [uuidv4()] and
    [formatTime()]. *)
Record Env := { now : Z; uuidv4 : uuid; formatTime : jsstring }.

(** The [type] discriminator of an inbound frame, as the [switch] sees it. *)
Inductive MsgType := TRegister | TChat | TWin | TPing | TOther.

(** The fields the handlers read of a parsed frame. *)
Record Data := {
  data_type : MsgType;
  data_nickname : jsval;
  data_text : jsval;
  data_amount : jsval;
  data_game : jsval }.

(** An inbound frame: longer than 8192 code units or rejected by
    [JSON.parse] (dropped before anything is read), or parsed.  A frame
    that parses to [null] makes [data.type] throw before any state is
    touched and counts as undecodable; one that parses to another value
    without fields has no [type] the [switch] knows. *)
Inductive Raw := Undecodable | Decoded (data : Data).

Definition MAX_CHAT : nat := 40.
Definition MAX_WINS : nat := 50.
Definition RL_WINDOW : Z := 10000.
Definition RL_MAX_CHAT : nat := 6.
Definition MAX_CLIENTS : nat := 500.

Definition initial : State :=
  {| wss_clients := []; clients := ∅; chatHistory := []; winHistory := [];
     rateLimits := ∅; broadcastTimer := false |}.

Definition set_wss_clients (W : list WebSocket) (s : State) : State :=
  {| wss_clients := W; clients := clients s; chatHistory := chatHistory s;
     winHistory := winHistory s; rateLimits := rateLimits s;
     broadcastTimer := broadcastTimer s |}.

Definition set_clients (m : gmap conn ClientInfo) (s : State) : State :=
  {| wss_clients := wss_clients s; clients := m; chatHistory := chatHistory s;
     winHistory := winHistory s; rateLimits := rateLimits s;
     broadcastTimer := broadcastTimer s |}.

Definition set_chatHistory (h : list Entry) (s : State) : State :=
  {| wss_clients := wss_clients s; clients := clients s; chatHistory := h;
     winHistory := winHistory s; rateLimits := rateLimits s;
     broadcastTimer := broadcastTimer s |}.

Definition set_winHistory (h : list Entry) (s : State) : State :=
  {| wss_clients := wss_clients s; clients := clients s;
     chatHistory := chatHistory s; winHistory := h;
     rateLimits := rateLimits s; broadcastTimer := broadcastTimer s |}.

Definition set_rateLimits (m : gmap uuid RateState) (s : State) : State :=
  {| wss_clients := wss_clients s; clients := clients s;
     chatHistory := chatHistory s; winHistory := winHistory s;
     rateLimits := m; broadcastTimer := broadcastTimer s |}.

Definition set_broadcastTimer (b : bool) (s : State) : State :=
  {| wss_clients := wss_clients s; clients := clients s;
     chatHistory := chatHistory s; winHistory := winHistory s;
     rateLimits := rateLimits s; broadcastTimer := b |}.

(** ** Helpers *)

(** [arr.push(item); if (arr.length > max) arr.shift();] *)
Definition pushBounded {A} (arr : list A) (item : A) (max : nat) : list A :=
  let arr := arr ++ [item] in
  if (max <? length arr)%nat then tail arr else arr.

Definition is_open (r : ReadyState) : bool :=
  match r with OPEN => true | _ => false end.

(** [ws.readyState]; a socket the server no longer holds is closed. *)
Definition ready (W : list WebSocket) (ws : conn) : ReadyState :=
  match List.find (fun x => (wsid x =? ws)%nat) W with
  | Some x => readyState x
  | None => CLOSED
  end.

(** The [ws.send] that [sendTo(ws, data)] attempts. *)
Definition sendTo (W : list WebSocket) (ws : conn) (data : Frame)
  : list (conn * Frame) :=
  if is_open (ready W ws) then [(ws, data)] else [].

Definition is_excluded (excludeWs : option conn) (ws : conn) : bool :=
  match excludeWs with
  | Some e => (ws =? e)%nat
  | None => false
  end.

(** The [ws.send]s that [broadcast(data, excludeWs)] attempts, in the order
    of [wss.clients]. *)
Fixpoint broadcast (W : list WebSocket) (data : Frame) (excludeWs : option conn)
  : list (conn * Frame) :=
  match W with
  | [] => []
  | x :: W' =>
      (if negb (is_excluded excludeWs (wsid x)) && is_open (readyState x)
       then [(wsid x, data)] else [])
      ++ broadcast W' data excludeWs
  end.

Definition broadcastAll (W : list WebSocket) (data : Frame) :=
  broadcast W data None.

Fixpoint getOnlineCount (W : list WebSocket) : nat :=
  match W with
  | [] => 0
  | x :: W' => ((if is_open (readyState x) then 1 else 0) + getOnlineCount W')%nat
  end.

(** Arms the debounce timer unless it is already armed. *)
Definition scheduleOnlineBroadcast (s : State) : State :=
  if broadcastTimer s then s else set_broadcastTimer true s.

Definition sanitize (str : jsval) (maxLen : nat) : jsstring :=
  match str with
  | JString s =>
      replaceAll 39 (lit "&#39;")
        (replaceAll 34 (lit "&quot;")
           (replaceAll 62 (lit "&gt;")
              (replaceAll 60 (lit "&lt;") (slice0 maxLen (trim s)))))
  | _ => []
  end.

(** The class that [sanitizeNick] removes: less-than, greater-than, double
    quote, apostrophe, slash, backslash and backtick. *)
Definition nick_stripped (c : N) : bool :=
  ((c =? 60) || (c =? 62) || (c =? 34) || (c =? 39) || (c =? 47)
   || (c =? 92) || (c =? 96))%N.

Definition sanitizeNick (str : jsval) : jsstring :=
  match str with
  | JString s =>
      trim (collapseSpaces (removeAll nick_stripped (slice0 24 (trim s))))
  | _ => []
  end.

(** ['admin', 'moderator', 'система', 'system', 'server', 'bot'] *)
Definition BAD_NICKS : list jsstring :=
  [ lit "admin"; lit "moderator";
    [1089; 1080; 1089; 1090; 1077; 1084; 1072]%N;
    lit "system"; lit "server"; lit "bot" ].

(** ['Игра'] *)
Definition default_game : jsstring := [1048; 1075; 1088; 1072]%N.

Definition checkRate (now : Z) (clientId : uuid) (rl : gmap uuid RateState)
  : bool * gmap uuid RateState :=
  let fresh := {| count := 0; t := now |} in
  let cur :=
    match rl !! clientId with
    | Some r => if RL_WINDOW <? now - t r then fresh else r
    | None => fresh
    end in
  let r' := {| count := S (count cur); t := t cur |} in
  ((count r' <=? RL_MAX_CHAT)%nat, <[clientId := r']> rl).

(** [n || 0] on a number. *)
Definition num_or_zero (n : jsnum) : jsnum :=
  match n with
  | NaN => of_Z 0
  | Infinity _ => n
  | Finite q => if Qeq_bool q 0 then of_Z 0 else n
  end.

(** ** Handlers *)

(** Two functions of the JavaScript runtime are taken as they are:
    [String.prototype.toLowerCase] and the conversion of a string by
    [Number]. *)
Class Runtime := {
  toLowerCase : jsstring -> jsstring;
  StringToNumber : jsstring -> jsnum }.

Section Handlers.

Context `{Runtime}.

Definition Number (v : jsval) : jsnum :=
  match v with
  | JUndefined => NaN
  | JNull => of_Z 0
  | JBool b => if b then of_Z 1 else of_Z 0
  | JNumber n => n
  | JString s => StringToNumber s
  | JObject s => StringToNumber s
  end.

(** The loop body's test of [isNickTaken]. *)
Definition nick_clash (low : jsstring) (excludeId : uuid) (c : ClientInfo) : bool :=
  negb (id c =? excludeId)%nat &&
  match nickname c with
  | Some n => negb (bool_decide (n = [])) && bool_decide (toLowerCase n = low)
  | None => false
  end.

Definition isNickTaken (nick : jsstring) (excludeId : uuid)
    (clients : gmap conn ClientInfo) : bool :=
  let low := toLowerCase nick in
  existsb (fun p => nick_clash low excludeId p.2) (map_to_list clients).

Definition is_bad_nick (nick : jsstring) : bool :=
  existsb (fun b => includes (toLowerCase nick) b) BAD_NICKS.

(** [case 'register']; the closure's [clientId] is [client.id]. *)
Definition on_register (env : Env) (ws : conn) (client : ClientInfo)
    (data : Data) (s : State) : State * list Call :=
  if registered client then (s, [])
  else
    let nick := sanitizeNick (or_else (data_nickname data) (JString [])) in
    if (length nick <? 2)%nat then (s, [CSendTo ws (RegisterErr TooShort)])
    else if (24 <? length nick)%nat then (s, [CSendTo ws (RegisterErr TooLong)])
    else if isNickTaken nick (id client) (clients s)
    then (s, [CSendTo ws (RegisterErr NickTaken)])
    else if is_bad_nick nick then (s, [CSendTo ws (RegisterErr NickForbidden)])
    else
      let client' := {| id := id client; nickname := Some nick;
                        ip := ip client; registered := true |} in
      let joinMsg := SystemMessage (JoinText nick) (formatTime env) in
      let s := set_clients (<[ws := client']> (clients s)) s in
      let s := set_chatHistory (pushBounded (chatHistory s) joinMsg MAX_CHAT) s in
      (scheduleOnlineBroadcast s,
       [CSendTo ws (RegisterOk nick (id client)); CBroadcast (Event joinMsg) None]).

(** [case 'chat'] *)
Definition on_chat (env : Env) (ws : conn) (client : ClientInfo)
    (data : Data) (s : State) : State * list Call :=
  if negb (registered client) then (s, [CSendTo ws (Err LoginFirst)])
  else
    let '(allowed, rl) := checkRate (now env) (id client) (rateLimits s) in
    let s := set_rateLimits rl s in
    if negb allowed then (s, [CSendTo ws (Err TooManyMessages)])
    else
      let text := sanitize (or_else (data_text data) (JString [])) 200 in
      if bool_decide (text = []) then (s, [])
      else
        let msg := ChatMsg (uuidv4 env) (id client) (nickname client) text
                     (formatTime env) in
        (set_chatHistory (pushBounded (chatHistory s) msg MAX_CHAT) s,
         [CBroadcast (Event msg) None]).

(** [case 'win'] *)
Definition on_win (env : Env) (ws : conn) (client : ClientInfo)
    (data : Data) (s : State) : State * list Call :=
  if negb (registered client) then (s, [])
  else
    let amount := Math_floor (num_or_zero (Number (data_amount data))) in
    if num_leb amount (of_Z 0) || num_gtb amount (of_Z 1000000) then (s, [])
    else
      let game := sanitize (or_else (data_game data) (JString default_game)) 40 in
      let win := WinMsg (id client) (nickname client) amount game (formatTime env) in
      let s := set_winHistory (pushBounded (winHistory s) win MAX_WINS) s in
      if num_geb amount (of_Z 500)
      then
        let sys := SystemMessage (BigWinText (nickname client) amount game)
                     (formatTime env) in
        (set_chatHistory (pushBounded (chatHistory s) sys MAX_CHAT) s,
         [CBroadcast (Event win) None; CBroadcast (Event sys) None])
      else (s, [CBroadcast (Event win) None]).

(** [ws.on('message', ...)] *)
Definition on_message (env : Env) (ws : conn) (raw : Raw) (s : State)
  : State * list Call :=
  match raw with
  | Undecodable => (s, [])
  | Decoded data =>
      match clients s !! ws with
      | None => (s, [])
      | Some client =>
          match data_type data with
          | TRegister => on_register env ws client data s
          | TChat => on_chat env ws client data s
          | TWin => on_win env ws client data s
          | TPing => (s, [CSendTo ws Pong])
          | TOther => (s, [])
          end
      end
  end.

(** Sets [ws.readyState]. *)
Definition set_readyState (ws : conn) (r : ReadyState) (W : list WebSocket)
  : list WebSocket :=
  map (fun x => if (wsid x =? ws)%nat then {| wsid := ws; readyState := r |} else x) W.

(** [wss.on('connection', ...)]: the library has already put [ws] in
    [wss.clients]. *)
Definition on_connection (env : Env) (ws : conn) (remote : jsstring) (s : State)
  : State * list Call :=
  if (MAX_CLIENTS <? length (wss_clients s))%nat
  then (set_wss_clients (set_readyState ws CLOSING (wss_clients s)) s,
        [CClose ws 1013 (lit "Server full")])
  else
    let clientId := uuidv4 env in
    let s := set_clients
               (<[ws := {| id := clientId; nickname := None; ip := remote;
                           registered := false |}]> (clients s)) s in
    (scheduleOnlineBroadcast s,
     [CSendTo ws (Init clientId (sliceLast 25 (chatHistory s))
                    (sliceLast 15 (winHistory s))
                    (getOnlineCount (wss_clients s)))]).

(** [ws.on('close', ...)] *)
Definition on_close (env : Env) (ws : conn) (s : State) : State * list Call :=
  match clients s !! ws with
  | Some client =>
      let announce :=
        if registered client
        then match nickname client with
             | Some n => if bool_decide (n = []) then None else Some n
             | None => None
             end
        else None in
      let '(s, calls) :=
        match announce with
        | Some n =>
            let bye := SystemMessage (ByeText n) (formatTime env) in
            (set_chatHistory (pushBounded (chatHistory s) bye MAX_CHAT) s,
             [CBroadcast (Event bye) (Some ws)])
        | None => (s, [])
        end in
      let s := set_rateLimits (delete (id client) (rateLimits s)) s in
      let s := set_clients (delete ws (clients s)) s in
      (scheduleOnlineBroadcast s, calls)
  | None => (scheduleOnlineBroadcast s, [])
  end.

(** The callback of the debounce timer. *)
Definition on_broadcastTimer (s : State) : State * list Call :=
  (set_broadcastTimer false s,
   [CBroadcast (OnlineCount (getOnlineCount (wss_clients s))) None]).

(** The periodic count broadcast. *)
Definition on_countInterval (s : State) : State * list Call :=
  (s, [CBroadcast (OnlineCount (getOnlineCount (wss_clients s))) None]).

(** The memory watchdog's trim. *)
Definition on_memoryTrim (s : State) : State :=
  set_winHistory (sliceLast 20 (winHistory s))
    (set_chatHistory (sliceLast 20 (chatHistory s)) s).

(** What [shutdown] asks of the sockets: [ws.close(1001, 'Restarting')] on
    every member of [wss.clients]. *)
Definition on_shutdown (s : State) : list Call :=
  map (fun x => CClose (wsid x) 1001 (lit "Restarting")) (wss_clients s).

(** The sweep of stale rate limits. *)
Definition on_rateSweep (env : Env) (s : State) : State :=
  let cutoff := now env - RL_WINDOW * 5 in
  set_rateLimits (filter (fun p => ¬ (t p.2 < cutoff)) (rateLimits s)) s.

(** ** The transport *)

(** The [ws.send]s a call attempts on the sockets [W]. *)
Definition perform (W : list WebSocket) (c : Call) : list (conn * Frame) :=
  match c with
  | CSendTo ws data => sendTo W ws data
  | CBroadcast data excludeWs => broadcast W data excludeWs
  | CClose _ _ _ => []
  end.

Definition deliver (W : list WebSocket) (calls : list Call) : list (conn * Frame) :=
  flat_map (perform W) calls.

(** ** Events *)

Inductive Input :=
  | Connection (ws : conn) (remote : jsstring)
  | Message (ws : conn) (raw : Raw)
  | Closed (ws : conn)
  | SocketState (ws : conn) (r : ReadyState)
  | BroadcastTimer
  | CountInterval
  | MemoryTrim
  | RateSweep.

(** What the [ws] library does around the handlers: a new socket joins
    [wss.clients] open before ['connection'] is emitted, and leaves it when
    it closes.  The message and close handlers of a socket are attached when
    it is admitted, that is, exactly while [clients] holds it. *)
Definition lib_add (ws : conn) (s : State) : State :=
  set_wss_clients (wss_clients s ++ [{| wsid := ws; readyState := OPEN |}]) s.

Definition lib_remove (ws : conn) (s : State) : State :=
  set_wss_clients (List.filter (fun x => negb (wsid x =? ws)%nat) (wss_clients s)) s.

Definition step (env : Env) (i : Input) (s : State) : State * list Call :=
  match i with
  | Connection ws remote => on_connection env ws remote (lib_add ws s)
  | Message ws raw => on_message env ws raw s
  | Closed ws =>
      let s := lib_remove ws s in
      match clients s !! ws with
      | Some _ => on_close env ws s
      | None => (s, [])
      end
  | SocketState ws r =>
      (set_wss_clients (set_readyState ws r (wss_clients s)) s, [])
  | BroadcastTimer => on_broadcastTimer s
  | CountInterval => on_countInterval s
  | MemoryTrim => (on_memoryTrim s, [])
  | RateSweep => (on_rateSweep env s, [])
  end.

(** An input the server can receive in state [s]: a connection brings a
    socket object and a uuid that no live session has. *)
Definition admissible (env : Env) (i : Input) (s : State) : Prop :=
  match i with
  | Connection ws _ =>
      (∀ x, x ∈ wss_clients s → wsid x ≠ ws) ∧ clients s !! ws = None ∧
      (∀ w c, clients s !! w = Some c → id c ≠ uuidv4 env)
  | _ => True
  end.

Inductive reachable : State -> Prop :=
  | reachable_initial : reachable initial
  | reachable_step env i s :
      reachable s -> admissible env i s -> reachable (step env i s).1.

(** ** The registry's invariant *)

(** A nickname as [register] stores it. *)
Definition good_nick (n : jsstring) : Prop :=
  sanitizeNick (JString n) = n /\ (2 <= length n <= 24)%nat /\
  is_bad_nick n = false.

(** Registered sessions have a nickname, every nickname is one that
    [register] stores, no two sessions share an id, and no two sessions hold
    nicknames that are equal up to case. *)
Record registry_ok (m : gmap conn ClientInfo) : Prop := {
  ok_registered : forall w c,
    m !! w = Some c -> registered c = true -> is_Some (nickname c);
  ok_nickname : forall w c n,
    m !! w = Some c -> nickname c = Some n -> good_nick n;
  ok_ids : forall w1 w2 c1 c2,
    m !! w1 = Some c1 -> m !! w2 = Some c2 -> id c1 = id c2 -> w1 = w2;
  ok_unique : forall w1 w2 c1 c2 n1 n2,
    m !! w1 = Some c1 -> m !! w2 = Some c2 ->
    nickname c1 = Some n1 -> nickname c2 = Some n2 ->
    toLowerCase n1 = toLowerCase n2 -> w1 = w2 }.

End Handlers.

(** ** Derived notions used in the statements *)

(** Appending a sequence of items, oldest first, with capacity [C]. *)
Definition appendAll {A} (C : nat) (items : list A) (arr : list A) : list A :=
  foldl (fun a x => pushBounded a x C) arr items.

(** A run of rate-limit checks of one session at the given clock readings. *)
Fixpoint runChecks (clientId : uuid) (times : list Z) (rl : gmap uuid RateState)
  : list bool * gmap uuid RateState :=
  match times with
  | [] => ([], rl)
  | now :: times' =>
      let '(ok, rl) := checkRate now clientId rl in
      let '(oks, rl) := runChecks clientId times' rl in
      (ok :: oks, rl)
  end.

(** The simultaneous form of the four replacements of [sanitize]. *)
Definition escapeUnit (c : N) : jsstring :=
  if (c =? 60)%N then lit "&lt;"
  else if (c =? 62)%N then lit "&gt;"
  else if (c =? 34)%N then lit "&quot;"
  else if (c =? 39)%N then lit "&#39;"
  else [c].

(** No white space at the front. *)
Definition starts_clean (s : list N) : Prop :=
  match s with
  | [] => True
  | c :: _ => is_space c = false
  end.

(** White space only as single spaces; [prev] tells that a space precedes. *)
Fixpoint single_spaced (prev : bool) (s : list N) : Prop :=
  match s with
  | [] => True
  | c :: r =>
      if is_space c then c = 32%N /\ prev = false /\ single_spaced true r
      else single_spaced false r
  end.

(** The four passes of [sanitize], in the order of the source. *)
Definition escapePasses (s : list N) : list N :=
  replaceAll 39 (lit "&#39;")
    (replaceAll 34 (lit "&quot;")
       (replaceAll 62 (lit "&gt;") (replaceAll 60 (lit "&lt;") s))).

Definition is_markup (c : N) : bool :=
  ((c =? 60) || (c =? 62) || (c =? 34) || (c =? 39))%N.

(** A runtime for examples over ASCII text: the letters A to Z are
    lower-cased, and [Number] reads no string as a number. *)
Definition asciiLower (s : jsstring) : jsstring :=
  map (fun c => if ((65 <=? c) && (c <=? 90))%N then (c + 32)%N else c) s.

Definition asciiRuntime : Runtime :=
  {| toLowerCase := asciiLower; StringToNumber := fun _ => NaN |}.

Definition env0 : Env := {| now := 0; uuidv4 := 7%nat; formatTime := lit "12:00" |}.
Definition env1 : Env := {| now := 1000; uuidv4 := 8%nat; formatTime := lit "12:01" |}.
Definition env2 : Env := {| now := 2000; uuidv4 := 9%nat; formatTime := lit "12:02" |}.

Definition registerAs (n : jsstring) : Raw :=
  Decoded {| data_type := TRegister; data_nickname := JString n;
             data_text := JUndefined; data_amount := JUndefined;
             data_game := JUndefined |}.

Definition chatText (x : jsstring) : Raw :=
  Decoded {| data_type := TChat; data_nickname := JUndefined;
             data_text := JString x; data_amount := JUndefined;
             data_game := JUndefined |}.

Definition winOf (a : jsval) : Raw :=
  Decoded {| data_type := TWin; data_nickname := JUndefined;
             data_text := JUndefined; data_amount := a;
             data_game := JUndefined |}.

(** Runs inputs from a state, dropping the calls. *)
Definition runFrom (s : State) (inputs : list (Env * Input)) : State :=
  foldl (fun s p => (@step asciiRuntime p.1 p.2 s).1) s inputs.

(** Two connections, the first registered as Alex. *)
Definition twoSessions : State :=
  runFrom initial
    [ (env0, Connection 1%nat (lit "10.0.0.1"));
      (env0, Message 1%nat (registerAs (lit "Alex")));
      (env1, Connection 2%nat (lit "10.0.0.2")) ].

Definition alex : ClientInfo :=
  {| id := 7%nat; nickname := Some (lit "Alex"); ip := lit "10.0.0.1";
     registered := true |}.

Definition guest : ClientInfo :=
  {| id := 8%nat; nickname := None; ip := lit "10.0.0.2"; registered := false |}.

(** Alex has sent six chat messages within one window. *)
Definition sixChats : State :=
  runFrom twoSessions (repeat (env2, Message 1%nat (chatText (lit "hi"))) 6).

(** ** The remaining code of the file *)

(** [while (arr.length > n) arr.shift();], the loop of the memory watchdog. *)
Fixpoint shiftWhileOver {A} (n : nat) (arr : list A) : list A :=
  match arr with
  | [] => []
  | _ :: r => if (n <? length arr)%nat then shiftWhileOver n r else arr
  end.

(** [GET /api/wins] and [GET /api/online]. *)
Definition api_wins (s : State) : list Entry := sliceLast 20 (winHistory s).
Definition api_online (s : State) : nat := getOnlineCount (wss_clients s).

(** The body of [GET /health] that depends on the hub:
    [online], [clients], [wins], [chats]. *)
Definition health (s : State) : nat * nat * nat * nat :=
  (getOnlineCount (wss_clients s), size (clients s),
   length (winHistory s), length (chatHistory s)).

(** The keepalive flag that the connection handler, the ['pong'] listener
    and the ping interval keep on each socket. *)
Record Peer := { peer : conn; isAlive : bool }.

Inductive Probe := Terminate (ws : conn) | Ping (ws : conn).

(** One socket of the ping interval:
    [if (!ws.isAlive) { ws.terminate(); return; } ws.isAlive = false; ws.ping();] *)
Definition probe (x : Peer) : Peer * Probe :=
  if negb (isAlive x) then (x, Terminate (peer x))
  else ({| peer := peer x; isAlive := false |}, Ping (peer x)).

(** One round of the ping interval over [wss.clients]. *)
Definition heartbeat (W : list Peer) : list Peer * list Probe :=
  (map (fun x => (probe x).1) W, map (fun x => (probe x).2) W).

(** [ws.on('pong', () => { ws.isAlive = true; })] *)
Definition on_pong (ws : conn) (W : list Peer) : list Peer :=
  map (fun x => if (peer x =? ws)%nat then {| peer := ws; isAlive := true |} else x) W.







(** Text without any of the four markup characters. *)
Definition markup_free (s : jsstring) : Prop :=
  Forall (fun c => is_markup c = false) s.

(** A nickname as entries carry it: present, and free of the characters
    that [sanitizeNick] removes. *)
Definition clean_nick (o : option jsstring) : Prop :=
  match o with
  | Some n => Forall (fun c => nick_stripped c = false) n /\ n <> []
  | None => False
  end.

(** What the handlers put in the win buffer. *)
Definition win_entry_ok (e : Entry) : Prop :=
  match e with
  | WinMsg _ nick amount game _ =>
      clean_nick nick /\ markup_free game /\
      exists z, amount = of_Z z /\ 0 < z <= 1000000
  | _ => False
  end.

(** What the handlers put in the chat buffer. *)
Definition chat_entry_ok (e : Entry) : Prop :=
  match e with
  | ChatMsg _ _ nick text _ =>
      clean_nick nick /\ markup_free text /\ text <> [] /\
      (length text <= 1200)%nat
  | SystemMessage (JoinText n) _ | SystemMessage (ByeText n) _ =>
      clean_nick (Some n)
  | SystemMessage (BigWinText nick amount game) _ =>
      clean_nick nick /\ markup_free game /\
      exists z, amount = of_Z z /\ 500 <= z <= 1000000
  | WinMsg _ _ _ _ _ => False
  end.

(** How one input may change a buffer: not at all, by the watchdog's trim,
    or by one push of an entry that satisfies [ok]. *)
Definition buffer_change (ok : Entry -> Prop) (max : nat) (old new : list Entry)
  : Prop :=
  new = old \/ new = sliceLast 20 old \/
  exists e, ok e /\ new = pushBounded old e max.

(** Sockets are distinct, and every session's socket is one the server
    holds. *)
Definition sockets_ok (s : State) : Prop :=
  NoDup (map wsid (wss_clients s)) /\
  forall w, is_Some (clients s !! w) -> w ∈ map wsid (wss_clients s).

(** Who sent an entry, as the entry says. *)
Definition entry_author (e : Entry) : option (nat * option jsstring) :=
  match e with
  | ChatMsg _ clientId nick _ _ => Some (clientId, nick)
  | WinMsg clientId nick _ _ _ => Some (clientId, nick)
  | SystemMessage _ _ => None
  end.

(** * Properties *)

(** ** History buffers *)

Section Buffers.
Context {A : Type}.
Implicit Types (arr items : list A) (C : nat).

Lemma length_pushBounded arr x C :
  (length arr <= C)%nat ->
  length (pushBounded arr x C) = Nat.min (S (length arr)) C.
Proof.
  intros Hle. unfold pushBounded.
  assert (Htl : forall l : list A, length (tail l) = (length l - 1)%nat).
  { intros [|a l]; simpl; lia. }
  destruct (Nat.ltb_spec C (length (arr ++ [x]))) as [Hlt | Hge];
    rewrite ?Htl; rewrite length_app in *; cbn [length] in *; lia.
Qed.

(** With room for at least one entry, a push puts the item at the tail and
    drops the head exactly when the buffer was full. *)
Lemma pushBounded_explicit arr x C :
  (0 < C)%nat ->
  pushBounded arr x C = (if (length arr <? C)%nat then arr else tail arr) ++ [x].
Proof.
  intros HC. unfold pushBounded. rewrite length_app. cbn [length].
  destruct (Nat.ltb_spec C (length arr + 1)), (Nat.ltb_spec (length arr) C);
    try lia; try done.
  destruct arr as [|a arr]; [simpl in *; lia | done].
Qed.

Lemma pushBounded_sliceLast arr x C :
  (length arr <= C)%nat -> pushBounded arr x C = sliceLast C (arr ++ [x]).
Proof.
  intros Hle. unfold pushBounded, sliceLast. rewrite length_app. simpl.
  destruct (Nat.ltb_spec C (length arr + 1)) as [Hlt | Hge].
  - replace (length arr + 1 - C)%nat with 1%nat by lia.
    by destruct (arr ++ [x]).
  - by replace (length arr + 1 - C)%nat with 0%nat by lia.
Qed.

Lemma sliceLast_length_le arr C :
  (length arr <= C)%nat -> sliceLast C arr = arr.
Proof.
  intros Hle. unfold sliceLast. by replace (length arr - C)%nat with 0%nat by lia.
Qed.

Lemma length_sliceLast arr C : length (sliceLast C arr) = Nat.min (length arr) C.
Proof. unfold sliceLast. rewrite length_drop. lia. Qed.

Lemma sliceLast_sliceLast_app arr items C :
  sliceLast C (sliceLast C arr ++ items) = sliceLast C (arr ++ items).
Proof.
  unfold sliceLast.
  rewrite <- (drop_app_le arr items) by lia.
  rewrite drop_drop. f_equal.
  rewrite length_drop, !length_app. lia.
Qed.

(** Appending to a buffer that respects its capacity keeps the most recent
    [C] entries of everything it has seen, in order. *)
Lemma appendAll_sliceLast C items arr :
  (length arr <= C)%nat -> appendAll C items arr = sliceLast C (arr ++ items).
Proof.
  revert arr. induction items as [|x items IH]; intros arr Hle.
  - simpl. rewrite app_nil_r. symmetry. by apply sliceLast_length_le.
  - simpl. fold (appendAll C items (pushBounded arr x C)).
    rewrite IH.
    + rewrite pushBounded_sliceLast by done.
      rewrite sliceLast_sliceLast_app. by rewrite <- app_assoc.
    + rewrite length_pushBounded by done. lia.
Qed.

End Buffers.

(** C1. After appending any sequence of items to an empty history buffer of
    capacity [C], the buffer holds exactly [min (number of appends) C]
    entries; they are the last [C] items appended, in insertion order, and
    what was evicted is exactly the oldest prefix of the sequence.  The chat
    and win buffers are the instances [C = 40] and [C = 50]. *)
Theorem history_buffer_keeps_most_recent :
  forall (C : nat) (items : list Entry),
    let buf := appendAll C items [] in
    length buf = Nat.min (length items) C /\
    buf = sliceLast C items /\
    (exists evicted, items = evicted ++ buf /\
                     length evicted = (length items - C)%nat) /\
    MAX_CHAT = 40%nat /\ MAX_WINS = 50%nat.
Proof.
  intros C items buf.
  assert (Hbuf : buf = sliceLast C items).
  { subst buf. rewrite appendAll_sliceLast by (simpl; lia). done. }
  split; [|split; [|split]].
  - rewrite Hbuf. apply length_sliceLast.
  - done.
  - exists (take (length items - C) items). split.
    + rewrite Hbuf. unfold sliceLast. by rewrite take_drop.
    + rewrite length_take. lia.
  - done.
Qed.

(** ** Rate limiter *)

Lemma checkRate_fresh now clientId rl :
  match rl !! clientId with
  | Some r => RL_WINDOW < now - t r
  | None => True
  end ->
  checkRate now clientId rl =
    (true, <[clientId := {| count := 1; t := now |}]> rl).
Proof.
  intros Hfresh. unfold checkRate.
  destruct (rl !! clientId) as [r|]; [|done].
  destruct (Z.ltb_spec RL_WINDOW (now - t r)); [done | lia].
Qed.

Lemma checkRate_within now clientId rl r :
  rl !! clientId = Some r ->
  now - t r <= RL_WINDOW ->
  checkRate now clientId rl =
    ((S (count r) <=? RL_MAX_CHAT)%nat,
     <[clientId := {| count := S (count r); t := t r |}]> rl).
Proof.
  intros Hr Hin. unfold checkRate. rewrite Hr.
  destruct (Z.ltb_spec RL_WINDOW (now - t r)); [lia | done].
Qed.

(** Checks that stay inside the window opened at [t0] only count up. *)
Lemma runChecks_within clientId times : forall rl n t0,
  rl !! clientId = Some {| count := n; t := t0 |} ->
  Forall (fun now => now - t0 <= RL_WINDOW) times ->
  runChecks clientId times rl =
    (map (fun k => (S (n + k) <=? RL_MAX_CHAT)%nat) (seq 0 (length times)),
     <[clientId := {| count := (n + length times)%nat; t := t0 |}]> rl).
Proof.
  induction times as [|now times IH]; intros rl n t0 Hr Hall.
  - simpl. rewrite Nat.add_0_r. by rewrite insert_id.
  - apply Forall_cons in Hall as [Hnow Hall]. cbn [runChecks].
    rewrite (checkRate_within _ _ _ _ Hr) by done. cbn [count t].
    rewrite (IH _ (S n) t0); [|by rewrite lookup_insert_eq|done].
    rewrite insert_insert_eq. f_equal.
    + cbn [length seq map]. rewrite Nat.add_0_r. f_equal.
      rewrite <- seq_shift, map_map. apply map_ext. intros k.
      by rewrite Nat.add_succ_r.
    + cbn [length]. do 2 f_equal. lia.
Qed.

(** C3. With the 10-second window and the maximum of 6: when a session's
    first check at [t0] opens a window (it has none, or its window has
    expired) and all its further checks read a clock within 10 s of [t0],
    the checks numbered 1 to 6 are allowed and every later one, the 7th
    included, is denied; after them, the first check that reads a clock more
    than 10 s past [t0] is allowed and opens a window of its own. *)
Theorem rate_limit_six_per_window :
  forall (clientId : nat) (rl : gmap nat RateState) (t0 : Z) (times : list Z),
    match rl !! clientId with
    | Some r => RL_WINDOW < t0 - t r
    | None => True
    end ->
    Forall (fun now => now - t0 <= RL_WINDOW) times ->
    let '(oks, rl') := runChecks clientId (t0 :: times) rl in
    RL_WINDOW = 10000 /\ RL_MAX_CHAT = 6%nat /\
    oks = map (fun k => (k <? 6)%nat) (seq 0 (S (length times))) /\
    (forall k, oks !! k = Some true <-> (k < 6 /\ k <= length times)%nat) /\
    (forall later, RL_WINDOW < later - t0 ->
       checkRate later clientId rl' =
         (true, <[clientId := {| count := 1; t := later |}]> rl')).
Proof.
  intros clientId rl t0 times Hfresh Hall.
  cbn [runChecks]. rewrite checkRate_fresh by done.
  rewrite (runChecks_within _ _ _ 1%nat t0);
    [|by rewrite lookup_insert_eq|done].
  assert (Hoks : true :: map (fun k => (S (1 + k) <=? RL_MAX_CHAT)%nat)
                   (seq 0 (length times))
                 = map (fun k => (k <? 6)%nat) (seq 0 (S (length times)))).
  { cbn [seq map]. f_equal. rewrite <- seq_shift, map_map.
    apply map_ext. intros k. unfold RL_MAX_CHAT.
    destruct (Nat.leb_spec (S (1 + k)) 6), (Nat.ltb_spec (S k) 6); lia || done. }
  rewrite Hoks. split; [done|]. split; [done|]. split; [done|]. split.
  - intros k. rewrite list_lookup_fmap.
    destruct (decide (k < S (length times))%nat) as [Hk|Hk].
    + rewrite lookup_seq_lt by done. simpl.
      destruct (Nat.ltb_spec k 6); split; intros; try lia; done.
    + rewrite lookup_seq_ge by lia. simpl. split; [done | lia].
  - intros later Hlater. apply checkRate_fresh.
    rewrite lookup_insert_eq. simpl. done.
Qed.

(** ** Sanitizer *)

Lemma replaceAll_app c rep (a b : list N) :
  replaceAll c rep (a ++ b) = replaceAll c rep a ++ replaceAll c rep b.
Proof.
  induction a as [|x a IH]; [done|].
  simpl. by rewrite IH, app_assoc.
Qed.

Lemma escapePasses_app a b :
  escapePasses (a ++ b) = escapePasses a ++ escapePasses b.
Proof. unfold escapePasses. by rewrite !replaceAll_app. Qed.

Lemma escapePasses_unit x : escapePasses [x] = escapeUnit x.
Proof.
  unfold escapePasses, escapeUnit.
  destruct (N.eqb_spec x 60) as [->|H60]; [done|].
  destruct (N.eqb_spec x 62) as [->|H62]; [done|].
  destruct (N.eqb_spec x 34) as [->|H34]; [done|].
  destruct (N.eqb_spec x 39) as [->|H39]; [done|].
  cbn [replaceAll app].
  apply N.eqb_neq in H60, H62, H34, H39.
  rewrite H60. cbn [replaceAll app]. rewrite H62. cbn [replaceAll app].
  rewrite H34. cbn [replaceAll app]. by rewrite H39.
Qed.

(** The passes never rewrite what an earlier pass produced: together they
    replace each code unit once. *)
Lemma escapePasses_flat_map s : escapePasses s = flat_map escapeUnit s.
Proof.
  induction s as [|x s IH]; [done|].
  change (x :: s) with ([x] ++ s).
  by rewrite escapePasses_app, escapePasses_unit, IH.
Qed.

Lemma escapeUnit_length x : (1 <= length (escapeUnit x) <= 6)%nat.
Proof. unfold escapeUnit. repeat case_match; simpl; lia. Qed.

Lemma escapeUnit_no_markup x :
  Forall (fun c => is_markup c = false) (escapeUnit x).
Proof.
  unfold escapeUnit.
  destruct (N.eqb_spec x 60); [by repeat constructor|].
  destruct (N.eqb_spec x 62); [by repeat constructor|].
  destruct (N.eqb_spec x 34); [by repeat constructor|].
  destruct (N.eqb_spec x 39); [by repeat constructor|].
  constructor; [|constructor]. unfold is_markup.
  repeat (apply orb_false_intro); by apply N.eqb_neq.
Qed.

Lemma escapeUnit_plain x : is_markup x = false -> escapeUnit x = [x].
Proof.
  unfold is_markup, escapeUnit. intros H.
  repeat (apply orb_false_elim in H as [H ?]).
  by repeat case_match.
Qed.

Lemma flat_map_escape_length s :
  (length s <= length (flat_map escapeUnit s) <= 6 * length s)%nat.
Proof.
  induction s as [|x s IH]; simpl; [lia|].
  rewrite length_app. pose proof (escapeUnit_length x). lia.
Qed.

Lemma trimStart_spec s :
  exists pre, s = pre ++ trimStart s /\ Forall (fun c => is_space c = true) pre.
Proof.
  induction s as [|c s (pre & Hs & Hpre)]; [by exists []|].
  simpl. destruct (is_space c) eqn:Hc.
  - exists (c :: pre). split; [simpl; congruence | by constructor].
  - by exists [].
Qed.

(** [trim] removes white space at the two ends and nothing else. *)
Lemma trim_spec s :
  exists pre post,
    s = pre ++ trim s ++ post /\
    Forall (fun c => is_space c = true) pre /\
    Forall (fun c => is_space c = true) post.
Proof.
  destruct (trimStart_spec s) as (pre & Hs & Hpre).
  destruct (trimStart_spec (rev (trimStart s))) as (tsop & Hr & Hpost).
  exists pre, (rev tsop). split; [|split].
  - unfold trim, trimEnd. rewrite <- rev_app_distr, <- Hr, rev_involutive. done.
  - done.
  - by apply Forall_rev.
Qed.

(** C7, as the code has it.  For a string, [sanitize] trims the two ends,
    keeps the first [maxLen] code units and then replaces each of the four
    markup characters by its entity: at most [maxLen] code units are kept,
    the result has none of the four characters and is at most [6 * maxLen]
    long, and a text without markup comes back as the kept text itself, its
    inner white space untouched.  A value that is not a string gives the
    empty string, in [sanitize] and in [sanitizeNick]. *)
Theorem sanitize_truncates_then_escapes :
  forall (raw : list N) (maxLen : nat),
    let kept := slice0 maxLen (trim raw) in
    sanitize (JString raw) maxLen = flat_map escapeUnit kept /\
    (exists pre post, raw = pre ++ trim raw ++ post /\
       Forall (fun c => is_space c = true) pre /\
       Forall (fun c => is_space c = true) post) /\
    (length kept <= maxLen)%nat /\
    (length (sanitize (JString raw) maxLen) <= 6 * maxLen)%nat /\
    Forall (fun c => is_markup c = false) (sanitize (JString raw) maxLen) /\
    (Forall (fun c => is_markup c = false) raw ->
       sanitize (JString raw) maxLen = kept) /\
    (forall v, match v with JString _ => True
               | _ => sanitize v maxLen = [] /\ sanitizeNick v = [] end).
Proof.
  intros raw maxLen kept.
  assert (Hs : sanitize (JString raw) maxLen = flat_map escapeUnit kept).
  { unfold sanitize. fold (escapePasses (slice0 maxLen (trim raw))).
    apply escapePasses_flat_map. }
  assert (Hk : (length kept <= maxLen)%nat).
  { subst kept. unfold slice0. rewrite length_take. lia. }
  split; [done|]. split; [apply trim_spec|]. split; [done|]. split; [|split; [|split]].
  - rewrite Hs. pose proof (flat_map_escape_length kept). lia.
  - rewrite Hs. apply Forall_flat_map, Forall_forall.
    intros x _. apply escapeUnit_no_markup.
  - intros Hplain. rewrite Hs.
    assert (Hkept : Forall (fun c => is_markup c = false) kept).
    { destruct (trim_spec raw) as (pre & post & Hraw & _ & _).
      rewrite Hraw in Hplain.
      apply Forall_app in Hplain as [_ Hplain].
      apply Forall_app in Hplain as [Hplain _].
      subst kept. unfold slice0. by apply Forall_take. }
    clear Hs Hk. induction kept as [|x k IH]; [done|].
    apply Forall_cons in Hkept as [Hx Hk].
    simpl. rewrite escapeUnit_plain by done. simpl. f_equal. by apply IH.
  - by intros [].
Qed.

(** C7, as stated, fails: two markup characters with [maxLen = 2] come back
    eight code units long, and a run of two spaces inside a text is kept. *)
Lemma sanitize_exceeds_maxLen_and_keeps_runs :
  (2 < length (sanitize (JString (lit "<<")) 2))%nat /\
  sanitize (JString (lit "a  b")) 200 = lit "a  b".
Proof. split; [vm_compute; lia | reflexivity]. Qed.

(** ** Numbers *)

Lemma num_ltb_of_Z a b : num_ltb (of_Z a) (of_Z b) = (a <? b).
Proof.
  unfold num_ltb, of_Z, Qle_bool. simpl. rewrite !Z.mul_1_r.
  by rewrite Z.ltb_antisym.
Qed.

Lemma num_leb_of_Z a b : num_leb (of_Z a) (of_Z b) = (a <=? b).
Proof.
  unfold num_leb. rewrite num_ltb_of_Z. simpl. by rewrite Z.leb_antisym.
Qed.

Lemma num_gtb_of_Z a b : num_gtb (of_Z a) (of_Z b) = (b <? a).
Proof. apply num_ltb_of_Z. Qed.

Lemma num_geb_of_Z a b : num_geb (of_Z a) (of_Z b) = (b <=? a).
Proof. apply num_leb_of_Z. Qed.


(** ** The transport *)

Lemma elem_of_broadcast W data excludeWs w f :
  (w, f) ∈ broadcast W data excludeWs <->
  f = data /\ is_excluded excludeWs w = false /\
  exists x, x ∈ W /\ wsid x = w /\ readyState x = OPEN.
Proof.
  induction W as [|x W IH]; simpl.
  - split; [by intros ?%elem_of_nil | by intros (_ & _ & ? & ?%elem_of_nil & _)].
  - rewrite elem_of_app, IH. split.
    + intros [Hx | (-> & Hex & y & Hy & Hw & Ho)].
      * destruct (is_excluded excludeWs (wsid x)) eqn:Hex; simpl in Hx;
          [by apply elem_of_nil in Hx|].
        destruct (readyState x) eqn:Hr; simpl in Hx;
          try by apply elem_of_nil in Hx.
        apply list_elem_of_singleton in Hx. injection Hx as -> ->.
        split; [done|]. split; [done|]. exists x. by rewrite elem_of_cons; auto.
      * split; [done|]. split; [done|]. exists y. rewrite elem_of_cons. auto.
    + intros (-> & Hex & y & [->|Hy]%elem_of_cons & Hw & Ho).
      * left. subst w. rewrite Hex, Ho. simpl. by apply list_elem_of_singleton.
      * right. split; [done|]. split; [done|]. by exists y.
Qed.

Lemma ready_open W ws :
  ready W ws = OPEN -> exists x, x ∈ W /\ wsid x = ws /\ readyState x = OPEN.
Proof.
  unfold ready. destruct (List.find _ W) as [x|] eqn:Hf; [|done].
  intros Ho. apply find_some in Hf as [Hin Hx].
  exists x. split; [by apply list_elem_of_In|]. split; [|done].
  by apply Nat.eqb_eq in Hx.
Qed.

(** What [broadcastAll] sends reaches every open socket the server holds. *)
Lemma broadcastAll_reaches W data x :
  x ∈ W -> readyState x = OPEN -> (wsid x, data) ∈ broadcast W data None.
Proof. intros Hx Ho. apply elem_of_broadcast. repeat split. by exists x. Qed.

Lemma broadcast_skips_excluded W data ws f :
  (ws, f) ∉ broadcast W data (Some ws).
Proof.
  intros (_ & Hex & _)%elem_of_broadcast. simpl in Hex.
  by rewrite Nat.eqb_refl in Hex.
Qed.

Lemma elem_of_deliver W calls p :
  p ∈ deliver W calls <-> exists c, c ∈ calls /\ p ∈ perform W c.
Proof.
  unfold deliver. rewrite list_elem_of_In, in_flat_map.
  split; intros (c & Hc & Hp); exists c;
    by rewrite ?list_elem_of_In in *.
Qed.

Lemma broadcastAll_recipients W data :
  broadcast W data None =
    map (fun x => (wsid x, data)) (List.filter (fun x => is_open (readyState x)) W).
Proof.
  induction W as [|x W IH]; [done|].
  simpl. destruct (is_open (readyState x)); simpl; by rewrite IH.
Qed.

(** The sender of a frame is among the open sockets when its socket is
    open. *)
Lemma sender_among_recipients W ws (f : Frame) :
  ready W ws = OPEN ->
  (ws, f) ∈ map (fun x => (wsid x, f))
              (List.filter (fun x => is_open (readyState x)) W).
Proof.
  intros (x & Hx & <- & Ho)%ready_open.
  apply list_elem_of_fmap. exists x. split; [done|].
  apply list_elem_of_In, filter_In. split; [by apply list_elem_of_In|].
  by rewrite Ho.
Qed.

(** ** Handlers *)

Section HandlerProperties.

Context `{Runtime}.

Lemma on_message_decoded env ws data s client :
  clients s !! ws = Some client ->
  on_message env ws (Decoded data) s =
    match data_type data with
    | TRegister => on_register env ws client data s
    | TChat => on_chat env ws client data s
    | TWin => on_win env ws client data s
    | TPing => (s, [CSendTo ws Pong])
    | TOther => (s, [])
    end.
Proof. intros Hc. unfold on_message. by rewrite Hc. Qed.

(** C4. A register message from a session that is already registered is
    ignored: the state is the very same (nickname, registered flag, both
    history buffers, rate limits, timer), the handler makes no call, and no
    frame, error or ok, is sent to anyone. *)
Theorem register_when_registered_is_ignored :
  forall env ws client data s,
    clients s !! ws = Some client ->
    registered client = true ->
    data_type data = TRegister ->
    let '(s', calls) := step env (Message ws (Decoded data)) s in
    s' = s /\ calls = [] /\ deliver (wss_clients s) calls = [] /\
    clients s' !! ws = Some client.
Proof.
  intros env ws client data s Hc Hreg Hty. cbn [step].
  rewrite (on_message_decoded _ _ _ _ _ Hc), Hty.
  unfold on_register. rewrite Hreg. done.
Qed.

Lemma ready_set_readyState ws r W :
  (exists x, x ∈ W /\ wsid x = ws) -> ready (set_readyState ws r W) ws = r.
Proof.
  intros (x & Hx & Hw). unfold ready, set_readyState.
  induction W as [|y W IH]; [by apply elem_of_nil in Hx|].
  simpl. destruct (Nat.eqb_spec (wsid y) ws) as [Hy|Hy]; simpl.
  - by rewrite Nat.eqb_refl.
  - apply Nat.eqb_neq in Hy. rewrite Hy.
    apply elem_of_cons in Hx as [->|Hx]; [|by apply IH].
    apply Nat.eqb_neq in Hy. done.
Qed.

Lemma ready_lib_add ws s :
  (forall x, x ∈ wss_clients s -> wsid x <> ws) ->
  ready (wss_clients (lib_add ws s)) ws = OPEN.
Proof.
  intros Hnew. unfold ready, lib_add. simpl.
  induction (wss_clients s) as [|y W IH]; simpl.
  - by rewrite Nat.eqb_refl.
  - destruct (Nat.eqb_spec (wsid y) ws) as [Hy|Hy].
    + exfalso. apply (Hnew y); [left | done].
    + apply IH. intros x Hx. apply Hnew. by right.
Qed.

Lemma shutdown_status ws code reason s :
  code <> 1001 -> CClose ws code reason ∉ on_shutdown s.
Proof.
  intros Hcode Hin. unfold on_shutdown in Hin.
  apply list_elem_of_fmap in Hin as (x & Hx & _). by injection Hx.
Qed.

(** C6. The connection handler sees the new socket already counted in
    [wss.clients].  It rejects, closing the socket with status 1013 and the
    reason ['Server full'], exactly when that count exceeds 500; the status
    is not the one [shutdown] closes sockets with.  A rejected socket is
    left closing, gets no entry in [clients], changes nothing else and is
    sent nothing, the init snapshot included; an admitted one gets a fresh
    unregistered entry and the init snapshot. *)
Theorem connection_beyond_cap_is_rejected :
  forall env ws remote s,
    let seen := lib_add ws s in
    let '(s', calls) := step env (Connection ws remote) s in
    let init := Init (uuidv4 env) (sliceLast 25 (chatHistory s))
                  (sliceLast 15 (winHistory s))
                  (getOnlineCount (wss_clients seen)) in
    let full := CClose ws 1013 (lit "Server full") in
    MAX_CLIENTS = 500%nat /\
    (calls = [full] <-> (MAX_CLIENTS < length (wss_clients seen))%nat) /\
    (full ∉ on_shutdown s') /\
    (calls = [full] ->
       clients s' = clients s /\ chatHistory s' = chatHistory s /\
       winHistory s' = winHistory s /\ rateLimits s' = rateLimits s /\
       broadcastTimer s' = broadcastTimer s /\
       ready (wss_clients s') ws = CLOSING /\
       deliver (wss_clients seen) calls = []) /\
    (calls <> [full] ->
       clients s' = <[ws := {| id := uuidv4 env; nickname := None; ip := remote;
                               registered := false |}]> (clients s) /\
       calls = [CSendTo ws init] /\
       ((forall x, x ∈ wss_clients s -> wsid x <> ws) ->
        deliver (wss_clients seen) calls = [(ws, init)])).
Proof.
  intros env ws remote s seen. cbn [step]. fold seen.
  unfold on_connection.
  destruct (Nat.ltb_spec MAX_CLIENTS (length (wss_clients seen))) as [Hfull|Hroom].
  - split; [done|]. split; [done|]. split; [by apply shutdown_status|].
    split; [|done].
    intros _. repeat split.
    apply ready_set_readyState.
    exists {| wsid := ws; readyState := OPEN |}. split; [|done].
    subst seen. simpl. apply elem_of_app. right. by apply list_elem_of_singleton.
  - split; [done|]. split; [|split; [by apply shutdown_status|split; [done|]]].
    + split; [done | lia].
    + intros _. split; [|split; [done|]].
      * unfold scheduleOnlineBroadcast. by case_match.
      * intros Hnew. unfold deliver. cbn [flat_map perform]. unfold sendTo.
        subst seen. by rewrite (ready_lib_add _ _ Hnew).
Qed.



(** Every call of the list is an error reply or a broadcast to all. *)
Ltac calls_shape :=
  repeat (apply Forall_cons; split;
          [first [by left; eexists | by right; eexists]|]);
  apply List.Forall_nil.

(** Membership of a call in an explicit list of calls. *)
Ltac in_calls H :=
  repeat (apply elem_of_cons in H as [H|H]);
  first [ discriminate H | by apply elem_of_nil in H | idtac ].

Lemma message_never_excludes env ws raw s d w :
  CBroadcast d (Some w) ∉ (on_message env ws raw s).2.
Proof.
  intros Hin. unfold on_message, on_register, on_chat, on_win in Hin.
  repeat case_match; cbn [snd] in Hin; in_calls Hin.
Qed.

Lemma close_excludes_only_itself env ws s d w :
  CBroadcast d (Some w) ∈ (on_close env ws s).2 ->
  w = ws /\ exists n, d = Event (SystemMessage (ByeText n) (formatTime env)).
Proof.
  intros Hin. unfold on_close in Hin.
  destruct (clients s !! ws) as [client|]; [|cbn [snd] in Hin; in_calls Hin].
  destruct (registered client); [destruct (nickname client) as [n|];
    [case_bool_decide|] |]; cbn [snd] in Hin; in_calls Hin.
  injection Hin as -> ->. split; [done | by exists n].
Qed.

(** The calls of a chat or win message: error replies to the sender and
    broadcasts to all; what they carry is what enters the buffers and
    reaches every open socket; only the departure message excludes one. *)
Lemma chat_and_win_frames :
  forall env ws client data s,
    clients s !! ws = Some client ->
    data_type data = TChat \/ data_type data = TWin ->
    let W := wss_clients s in
    let '(s', calls) := step env (Message ws (Decoded data)) s in
    let sent := omap (fun c => match c with
                               | CBroadcast (Event e) None => Some e
                               | _ => None
                               end) calls in
    let is_win e := match e with WinMsg _ _ _ _ _ => true | _ => false end in
    Forall (fun c => (exists m, c = CSendTo ws (Err m)) \/
                     (exists e, c = CBroadcast (Event e) None)) calls /\
    winHistory s' = appendAll MAX_WINS (List.filter is_win sent) (winHistory s) /\
    chatHistory s' =
      appendAll MAX_CHAT (List.filter (fun e => negb (is_win e)) sent)
        (chatHistory s) /\
    (forall e, e ∈ sent ->
       (forall x, x ∈ W -> readyState x = OPEN ->
                  (wsid x, Event e) ∈ deliver W calls) /\
       (ready W ws = OPEN -> (ws, Event e) ∈ deliver W calls)) /\
    (forall env' i d w,
       CBroadcast d (Some w) ∈ (step env' i s).2 ->
       i = Closed w /\
       exists n, d = Event (SystemMessage (ByeText n) (formatTime env'))).
Proof.
  intros env ws client data s Hc Hty W. cbn [step].
  assert (Honly : forall env' i d w,
            CBroadcast d (Some w) ∈ (step env' i s).2 ->
            i = Closed w /\
            exists n, d = Event (SystemMessage (ByeText n) (formatTime env'))).
  { intros env' i d w Hin. destruct i as [c r|c r|c|c r| | | |]; cbn [step] in Hin.
    - unfold on_connection in Hin. case_match; cbn [snd] in Hin; in_calls Hin.
    - by apply message_never_excludes in Hin.
    - case_match; [|cbn [snd] in Hin; in_calls Hin].
      apply close_excludes_only_itself in Hin as [-> ?]. done.
    - cbn [snd] in Hin. in_calls Hin.
    - cbn [snd on_broadcastTimer] in Hin. in_calls Hin.
    - cbn [snd on_countInterval] in Hin. in_calls Hin.
    - cbn [snd] in Hin. in_calls Hin.
    - cbn [snd] in Hin. in_calls Hin. }
  assert (Hall : forall e calls,
            CBroadcast (Event e) None ∈ calls ->
            (forall x, x ∈ W -> readyState x = OPEN ->
                       (wsid x, Event e) ∈ deliver W calls) /\
            (ready W ws = OPEN -> (ws, Event e) ∈ deliver W calls)).
  { intros e calls Hin.
    assert (Hx : forall x, x ∈ W -> readyState x = OPEN ->
                           (wsid x, Event e) ∈ deliver W calls).
    { intros x Hx Ho. apply elem_of_deliver.
      exists (CBroadcast (Event e) None). split; [done|].
      by apply broadcastAll_reaches. }
    split; [done|].
    intros (x & Hin' & <- & Ho)%ready_open. by apply Hx. }
  rewrite (on_message_decoded _ _ _ _ _ Hc).
  assert (Hleaf : forall calls,
            Forall (fun c => (exists m, c = CSendTo ws (Err m)) \/
                             (exists e, c = CBroadcast (Event e) None)) calls ->
            forall sent,
            sent = omap (fun c => match c with
                                  | CBroadcast (Event e) None => Some e
                                  | _ => None
                                  end) calls ->
            (forall e, e ∈ sent ->
               (forall x, x ∈ W -> readyState x = OPEN ->
                          (wsid x, Event e) ∈ deliver W calls) /\
               (ready W ws = OPEN -> (ws, Event e) ∈ deliver W calls))).
  { intros calls Hcalls sent -> e He. apply Hall.
    apply list_elem_of_omap in He as (c & Hc' & He).
    rewrite Forall_forall in Hcalls.
    destruct (Hcalls c Hc') as [[m ->] | [e' ->]]; [done|].
    by injection He as ->. }
  destruct Hty as [-> | ->].
  - unfold on_chat.
    destruct (registered client); cbn [negb];
      [ destruct (checkRate _ _ _) as [[] rl]; cbn [negb];
        [ case_bool_decide | ] | ];
      (split; [ calls_shape
              | split; [done | split; [done | split; [|exact Honly]]]]);
      (eapply Hleaf; [|reflexivity]);
      calls_shape.
  - unfold on_win.
    destruct (registered client); cbn [negb];
      [ destruct (num_leb _ _ || num_gtb _ _); [ | destruct (num_geb _ _) ] | ];
      (split; [ calls_shape
              | split; [done | split; [done | split; [|exact Honly]]]]);
      (eapply Hleaf; [|reflexivity]);
      calls_shape.
Qed.

(** An accepted chat is broadcast. *)
Lemma accepted_chat_is_broadcast env ws client data s :
  clients s !! ws = Some client ->
  data_type data = TChat ->
  registered client = true ->
  (checkRate (now env) (id client) (rateLimits s)).1 = true ->
  let text := sanitize (or_else (data_text data) (JString [])) 200 in
  text <> [] ->
  let msg := ChatMsg (uuidv4 env) (id client) (nickname client) text
               (formatTime env) in
  let W := wss_clients s in
  let '(s', calls) := step env (Message ws (Decoded data)) s in
  calls = [CBroadcast (Event msg) None] /\
  deliver W calls =
    map (fun x => (wsid x, Event msg))
      (List.filter (fun x => is_open (readyState x)) W) /\
  (ready W ws = OPEN -> (ws, Event msg) ∈ deliver W calls) /\
  last (chatHistory s') = Some msg.
Proof.
  intros Hc Hty Hreg Hallow text Htext msg W. cbn [step].
  rewrite (on_message_decoded _ _ _ _ _ Hc), Hty.
  unfold on_chat. rewrite Hreg. cbn [negb].
  destruct (checkRate (now env) (id client) (rateLimits s)) as [allowed rl].
  cbn [fst] in Hallow. subst allowed. cbn [negb]. fold text.
  rewrite bool_decide_eq_false_2 by done. fold msg.
  assert (Hd : deliver W [CBroadcast (Event msg) None] =
               map (fun x => (wsid x, Event msg))
                 (List.filter (fun x => is_open (readyState x)) W)).
  { unfold deliver. cbn [flat_map perform].
    by rewrite app_nil_r, broadcastAll_recipients. }
  split; [done|]. split; [done|]. split.
  - intros Hopen. rewrite Hd. by apply sender_among_recipients.
  - cbn [chatHistory set_chatHistory set_rateLimits].
    rewrite pushBounded_explicit by (unfold MAX_CHAT; lia). apply last_snoc.
Qed.

(** An accepted win is broadcast, and from 500 on its announcement too. *)
Lemma accepted_win_is_broadcast env ws client data s z :
  clients s !! ws = Some client ->
  data_type data = TWin ->
  registered client = true ->
  let amount := Math_floor (num_or_zero (Number (data_amount data))) in
  amount = of_Z z ->
  0 < z <= 1000000 ->
  let game := sanitize (or_else (data_game data) (JString default_game)) 40 in
  let win := WinMsg (id client) (nickname client) amount game (formatTime env) in
  let sys := SystemMessage (BigWinText (nickname client) amount game)
               (formatTime env) in
  let W := wss_clients s in
  let everyone e := map (fun x => (wsid x, Event e))
                      (List.filter (fun x => is_open (readyState x)) W) in
  let '(s', calls) := step env (Message ws (Decoded data)) s in
  calls = CBroadcast (Event win) None ::
          (if 500 <=? z then [CBroadcast (Event sys) None] else []) /\
  deliver W calls = everyone win ++ (if 500 <=? z then everyone sys else []) /\
  (ready W ws = OPEN -> (ws, Event win) ∈ deliver W calls) /\
  last (winHistory s') = Some win /\
  (500 <= z -> last (chatHistory s') = Some sys).
Proof.
  intros Hc Hty Hreg amount Hz Hrange game win sys W everyone. cbn [step].
  rewrite (on_message_decoded _ _ _ _ _ Hc), Hty.
  unfold on_win. rewrite Hreg. cbn [negb]. fold amount. fold game. fold win.
  fold sys.
  assert (Hpass : num_leb amount (of_Z 0) || num_gtb amount (of_Z 1000000) = false).
  { rewrite Hz, num_leb_of_Z, num_gtb_of_Z.
    destruct (Z.leb_spec z 0), (Z.ltb_spec 1000000 z); lia || done. }
  assert (Hbig : num_geb amount (of_Z 500) = (500 <=? z)).
  { rewrite Hz. apply num_geb_of_Z. }
  rewrite Hpass, Hbig.
  assert (Hd : forall e calls,
            deliver W (CBroadcast (Event e) None :: calls) =
              everyone e ++ deliver W calls).
  { intros e calls. unfold deliver. cbn [flat_map perform].
    by rewrite broadcastAll_recipients. }
  assert (Hecho : forall rest, ready W ws = OPEN -> (ws, Event win) ∈ everyone win ++ rest).
  { intros rest Hopen. apply elem_of_app. left. by apply sender_among_recipients. }
  destruct (Z.leb_spec 500 z) as [Hge|Hlt]; cbv beta iota;
    cbn [chatHistory winHistory set_chatHistory set_winHistory];
    rewrite !Hd; change (deliver W []) with (@nil (nat * Frame));
    rewrite ?app_nil_r;
    (split; [done|]; split; [done|]; split;
     [intros Hopen;
      first [by apply Hecho | by apply sender_among_recipients]|]; split;
     [rewrite pushBounded_explicit by (unfold MAX_WINS; lia); apply last_snoc|]).
  - intros _. rewrite pushBounded_explicit by (unfold MAX_CHAT; lia). apply last_snoc.
  - lia.
Qed.

(** C10. For a chat or win message of a session.  An accepted chat (the
    sender registered, the rate limiter allowing, the sanitized text not
    empty) makes exactly one call, a broadcast of the chat entry that
    excludes nobody; an accepted win (the sender registered, the amount from
    1 to 1,000,000) makes a broadcast of the win entry and, from 500 on, one
    of its announcement, none excluding anybody.  Each is sent to every open
    socket the server holds, the sender's own among them when it is open,
    and the entry is the new last entry of its buffer.  In general every
    call of the handler is an error reply to the sender or a broadcast to
    all, and the entries that enter the buffers are exactly the entries
    broadcast.  Over all inputs of the server, a broadcast that excludes a
    connection is the departure message of that very connection. *)
Theorem chat_and_win_reach_every_open_connection :
  forall env ws client data s,
    clients s !! ws = Some client ->
    data_type data = TChat \/ data_type data = TWin ->
    let W := wss_clients s in
    let everyone e := map (fun x => (wsid x, Event e))
                        (List.filter (fun x => is_open (readyState x)) W) in
    let text := sanitize (or_else (data_text data) (JString [])) 200 in
    let msg := ChatMsg (uuidv4 env) (id client) (nickname client) text
                 (formatTime env) in
    let amount := Math_floor (num_or_zero (Number (data_amount data))) in
    let game := sanitize (or_else (data_game data) (JString default_game)) 40 in
    let win := WinMsg (id client) (nickname client) amount game (formatTime env) in
    let sys := SystemMessage (BigWinText (nickname client) amount game)
                 (formatTime env) in
    let '(s', calls) := step env (Message ws (Decoded data)) s in
    let sent := omap (fun c => match c with
                               | CBroadcast (Event e) None => Some e
                               | _ => None
                               end) calls in
    let is_win e := match e with WinMsg _ _ _ _ _ => true | _ => false end in
    Forall (fun c => (exists m, c = CSendTo ws (Err m)) \/
                     (exists e, c = CBroadcast (Event e) None)) calls /\
    winHistory s' = appendAll MAX_WINS (List.filter is_win sent) (winHistory s) /\
    chatHistory s' =
      appendAll MAX_CHAT (List.filter (fun e => negb (is_win e)) sent)
        (chatHistory s) /\
    (forall e, e ∈ sent ->
       (forall x, x ∈ W -> readyState x = OPEN ->
                  (wsid x, Event e) ∈ deliver W calls) /\
       (ready W ws = OPEN -> (ws, Event e) ∈ deliver W calls)) /\
    (forall env' i d w,
       CBroadcast d (Some w) ∈ (step env' i s).2 ->
       i = Closed w /\
       exists n, d = Event (SystemMessage (ByeText n) (formatTime env'))) /\
    (data_type data = TChat -> registered client = true ->
     (checkRate (now env) (id client) (rateLimits s)).1 = true ->
     text <> [] ->
       calls = [CBroadcast (Event msg) None] /\
       deliver W calls = everyone msg /\
       (ready W ws = OPEN -> (ws, Event msg) ∈ deliver W calls) /\
       last (chatHistory s') = Some msg) /\
    (data_type data = TWin -> registered client = true ->
     forall z, amount = of_Z z -> 0 < z <= 1000000 ->
       calls = CBroadcast (Event win) None ::
               (if 500 <=? z then [CBroadcast (Event sys) None] else []) /\
       deliver W calls = everyone win ++ (if 500 <=? z then everyone sys else []) /\
       (ready W ws = OPEN -> (ws, Event win) ∈ deliver W calls) /\
       last (winHistory s') = Some win /\
       (500 <= z -> last (chatHistory s') = Some sys)).
Proof.
  intros env ws client data s Hc Hty.
  pose proof (chat_and_win_frames env ws client data s Hc Hty) as Hframes.
  pose proof (accepted_chat_is_broadcast env ws client data s Hc) as Hchat.
  pose proof (fun z => accepted_win_is_broadcast env ws client data s z Hc) as Hwin.
  cbv zeta in *.
  destruct (step env (Message ws (Decoded data)) s) as [s' calls].
  destruct Hframes as (H1 & H2 & H3 & H4 & H5).
  split; [exact H1|]. split; [exact H2|]. split; [exact H3|].
  split; [exact H4|]. split; [exact H5|]. split.
  - intros Hty' Hreg Hallow Htext. exact (Hchat Hty' Hreg Hallow Htext).
  - intros Hty' Hreg z Hz Hrange. exact (Hwin z Hty' Hreg Hz Hrange).
Qed.

End HandlerProperties.

(** ** Nicknames in normal form *)

Lemma trimStart_clean s : starts_clean (trimStart s).
Proof.
  induction s as [|c s IH]; [done|].
  simpl. by destruct (is_space c) eqn:Hc.
Qed.

Lemma trimStart_id s : starts_clean s -> trimStart s = s.
Proof. destruct s as [|c s]; [done|]. simpl. by intros ->. Qed.

Lemma trimEnd_prefix s :
  exists post, s = trimEnd s ++ post /\ Forall (fun c => is_space c = true) post.
Proof.
  destruct (trimStart_spec (rev s)) as (pre & Hs & Hpre).
  exists (rev pre). split; [|by apply Forall_rev].
  unfold trimEnd. by rewrite <- rev_app_distr, <- Hs, rev_involutive.
Qed.

Lemma trimEnd_clean s : starts_clean s -> starts_clean (trimEnd s).
Proof.
  destruct (trimEnd_prefix s) as (post & Hs & _).
  destruct (trimEnd s) as [|c u]; [done|].
  rewrite Hs. done.
Qed.

Lemma trimEnd_trimEnd s : trimEnd (trimEnd s) = trimEnd s.
Proof.
  unfold trimEnd. rewrite rev_involutive.
  by rewrite (trimStart_id _ (trimStart_clean _)).
Qed.

Lemma trim_trim s : trim (trim s) = trim s.
Proof.
  unfold trim.
  rewrite (trimStart_id (trimEnd (trimStart s))).
  - apply trimEnd_trimEnd.
  - apply trimEnd_clean, trimStart_clean.
Qed.

Lemma length_trimStart s : (length (trimStart s) <= length s)%nat.
Proof.
  induction s as [|c s IH]; [done|].
  simpl. destruct (is_space c); simpl; lia.
Qed.

Lemma length_trim s : (length (trim s) <= length s)%nat.
Proof.
  destruct (trim_spec s) as (pre & post & Hs & _).
  rewrite Hs at 2. rewrite !length_app. lia.
Qed.

Lemma Forall_trim (P : N -> Prop) s : Forall P s -> Forall P (trim s).
Proof.
  destruct (trim_spec s) as (pre & post & Hs & _).
  rewrite Hs at 1. rewrite !Forall_app. tauto.
Qed.

Lemma length_collapseFrom b s : (length (collapseFrom b s) <= length s)%nat.
Proof.
  revert b. induction s as [|c s IH]; intros b; [done|].
  pose proof (IH true). pose proof (IH false).
  simpl. destruct (is_space c), b; simpl; lia.
Qed.

Lemma Forall_collapseFrom (P : N -> Prop) b s :
  P 32%N -> Forall P s -> Forall P (collapseFrom b s).
Proof.
  intros H32. revert b. induction s as [|c s IH]; intros b Hs; [done|].
  apply Forall_cons in Hs as [Hc Hs]. simpl.
  destruct (is_space c), b; try constructor; auto.
Qed.

Lemma collapseFrom_single_spaced b s : single_spaced b (collapseFrom b s).
Proof.
  revert b. induction s as [|c s IH]; intros b; [done|].
  simpl. destruct (is_space c) eqn:Hc.
  - destruct b; [apply IH|]. simpl. split; [done|]. split; [done|]. apply IH.
  - simpl. rewrite Hc. apply IH.
Qed.

Lemma single_spaced_weaken b s : single_spaced b s -> single_spaced false s.
Proof.
  destruct s as [|c s]; [done|]. simpl.
  destruct (is_space c); [|done]. tauto.
Qed.

Lemma single_spaced_id b s : single_spaced b s -> collapseFrom b s = s.
Proof.
  revert b. induction s as [|c s IH]; intros b; [done|].
  simpl. destruct (is_space c).
  - intros (-> & -> & Hs). f_equal. by apply IH.
  - intros Hs. f_equal. by apply IH.
Qed.

Lemma single_spaced_prefix b s post :
  single_spaced b (s ++ post) -> single_spaced b s.
Proof.
  revert b. induction s as [|c s IH]; intros b; [done|].
  simpl. destruct (is_space c).
  - intros (? & ? & Hs). eauto.
  - apply IH.
Qed.

Lemma single_spaced_trim s : single_spaced false s -> single_spaced false (trim s).
Proof.
  intros Hs. unfold trim.
  assert (Hstart : single_spaced false (trimStart s)).
  { clear -Hs. induction s as [|c s IH]; [done|].
    simpl in *. destruct (is_space c) eqn:Hc.
    - destruct Hs as (_ & _ & Hs). apply IH. by eapply single_spaced_weaken.
    - simpl. by rewrite Hc. }
  destruct (trimEnd_prefix (trimStart s)) as (post & Hpost & _).
  rewrite Hpost in Hstart. by eapply single_spaced_prefix.
Qed.

Lemma removeAll_id cls s :
  Forall (fun c => cls c = false) s -> removeAll cls s = s.
Proof.
  induction 1 as [|c s Hc Hs IH]; [done|].
  unfold removeAll in *. simpl. rewrite Hc. simpl. by rewrite IH.
Qed.

Lemma removeAll_clean cls s : Forall (fun c => cls c = false) (removeAll cls s).
Proof.
  induction s as [|c s IH]; [done|].
  unfold removeAll in *. simpl. destruct (cls c) eqn:Hc; simpl; [done|].
  by constructor.
Qed.

Lemma length_removeAll cls s : (length (removeAll cls s) <= length s)%nat.
Proof.
  induction s as [|c s IH]; [done|].
  unfold removeAll in *. simpl. destruct (cls c); simpl; lia.
Qed.

Lemma length_sanitizeNick v : (length (sanitizeNick v) <= 24)%nat.
Proof.
  destruct v as [| | | |s|]; try (simpl; lia).
  unfold sanitizeNick, collapseSpaces.
  etrans; [apply length_trim|].
  etrans; [apply length_collapseFrom|].
  etrans; [apply length_removeAll|].
  unfold slice0. rewrite length_take. lia.
Qed.

(** What [sanitizeNick] returns, it returns unchanged when given it again. *)
Lemma sanitizeNick_idempotent v :
  sanitizeNick (JString (sanitizeNick v)) = sanitizeNick v.
Proof.
  pose proof (length_sanitizeNick v) as Hlen.
  destruct v as [| | | |s|]; try done.
  cbn [sanitizeNick] in *.
  set (x := collapseSpaces (removeAll nick_stripped (slice0 24 (trim s)))) in *.
  rewrite trim_trim.
  unfold slice0 at 1. rewrite take_ge by done.
  rewrite removeAll_id.
  - unfold collapseSpaces at 1. rewrite single_spaced_id; [apply trim_trim|].
    apply single_spaced_trim. apply collapseFrom_single_spaced.
  - apply Forall_trim. apply Forall_collapseFrom; [done|].
    apply removeAll_clean.
Qed.

(** ** The session registry *)

Section RegistryProperties.

Context `{Runtime}.

Lemma isNickTaken_true nick excludeId (m : gmap nat ClientInfo) :
  isNickTaken nick excludeId m = true <->
  exists w c n, m !! w = Some c /\ id c <> excludeId /\ nickname c = Some n /\
                n <> [] /\ toLowerCase n = toLowerCase nick.
Proof.
  unfold isNickTaken. rewrite existsb_exists. split.
  - intros ([w c] & Hin & Hclash).
    apply list_elem_of_In, elem_of_map_to_list in Hin.
    unfold nick_clash in Hclash. cbn [snd] in Hclash.
    apply andb_true_iff in Hclash as [Hid Hn].
    destruct (nickname c) as [n|] eqn:Hnick; [|done].
    apply andb_true_iff in Hn as [Hne Hlow].
    exists w, c, n. repeat split; try done.
    + apply negb_true_iff, Nat.eqb_neq in Hid. done.
    + apply negb_true_iff in Hne. by apply bool_decide_eq_false in Hne.
    + by apply bool_decide_eq_true in Hlow.
  - intros (w & c & n & Hc & Hid & Hnick & Hne & Hlow).
    exists (w, c). split.
    + by apply list_elem_of_In, elem_of_map_to_list.
    + unfold nick_clash. cbn [snd]. rewrite Hnick.
      apply andb_true_iff. split.
      * by apply negb_true_iff, Nat.eqb_neq.
      * apply andb_true_iff. split.
        -- by apply negb_true_iff, bool_decide_eq_false.
        -- by apply bool_decide_eq_true.
Qed.

Lemma isNickTaken_false nick excludeId (m : gmap nat ClientInfo) :
  (forall w c n, m !! w = Some c -> nickname c = Some n ->
                 toLowerCase n <> toLowerCase nick) ->
  isNickTaken nick excludeId m = false.
Proof.
  intros Hfree. apply not_true_is_false.
  intros (w & c & n & Hc & _ & Hn & _ & Hlow)%isNickTaken_true.
  by eapply Hfree.
Qed.

Lemma clients_scheduleOnlineBroadcast s :
  clients (scheduleOnlineBroadcast s) = clients s.
Proof. unfold scheduleOnlineBroadcast. by case_match. Qed.

Lemma registry_ok_empty : registry_ok ∅.
Proof. split; intros *; by rewrite lookup_empty. Qed.

Lemma registry_ok_delete ws (m : gmap nat ClientInfo) :
  registry_ok m -> registry_ok (delete ws m).
Proof.
  intros [Hr Hn Hi Hu]. split; intros *; rewrite ?lookup_delete_Some.
  - intros [_ ?]. eauto.
  - intros [_ ?]. eauto.
  - intros [_ ?] [_ ?]. eauto.
  - intros [_ ?] [_ ?]. eauto.
Qed.

(** Admission: a new socket with a new id and no nickname. *)
Lemma registry_ok_admit ws c (m : gmap nat ClientInfo) :
  registry_ok m -> m !! ws = None ->
  registered c = false -> nickname c = None ->
  (forall w c', m !! w = Some c' -> id c' <> id c) ->
  registry_ok (<[ws := c]> m).
Proof.
  intros [Hr Hn Hi Hu] Hnew Hreg Hnick Hid. split; intros *;
    rewrite ?lookup_insert_Some.
  - intros [[_ <-] | [_ ?]]; [congruence | eauto].
  - intros [[_ <-] | [_ ?]]; [congruence | eauto].
  - intros [[<- <-] | [? ?]] [[<- <-] | [? ?]]; try done.
    + intros Heq. exfalso. by eapply Hid.
    + intros Heq. exfalso. by eapply Hid.
    + eauto.
  - intros [[<- <-] | [? ?]] [[<- <-] | [? ?]]; try done; try congruence.
    eauto.
Qed.

(** Registration: the session at [ws] takes a nickname nobody else holds. *)
Lemma registry_ok_register ws c nick (m : gmap nat ClientInfo) :
  registry_ok m -> m !! ws = Some c ->
  good_nick nick -> isNickTaken nick (id c) m = false ->
  registry_ok (<[ws := {| id := id c; nickname := Some nick; ip := ip c;
                          registered := true |}]> m).
Proof.
  intros [Hr Hn Hi Hu] Hc Hgood Hfree.
  assert (Hother : forall w c' n, m !! w = Some c' -> w <> ws ->
                     nickname c' = Some n ->
                     toLowerCase n <> toLowerCase nick).
  { intros w c' n Hc' Hw Hnick Hlow.
    assert (isNickTaken nick (id c) m = true); [|congruence].
    apply isNickTaken_true. exists w, c', n. repeat split; try done.
    - intros Hid. apply Hw. by eapply Hi.
    - destruct (Hn _ _ _ Hc' Hnick) as (_ & Hlen & _).
      intros ->. simpl in Hlen. lia. }
  split; intros *; rewrite ?lookup_insert_Some.
  - intros [[_ <-] | [_ ?]]; [done | eauto].
  - intros [[_ <-] | [_ ?]]; [by intros [= <-] | eauto].
  - intros [[<- <-] | [? ?]] [[<- <-] | [? ?]]; try done; cbn [id].
    + intros Heq. symmetry. by eapply Hi.
    + intros Heq. by eapply Hi.
    + eauto.
  - intros [[<- <-] | [? ?]] [[<- <-] | [? ?]]; try done; cbn [nickname].
    + intros [= <-] Hn2 Hlow. exfalso. by eapply Hother.
    + intros Hn1 [= <-] Hlow. exfalso. by eapply Hother.
    + eauto.
Qed.

Lemma on_register_registry_ok env ws c data s :
  registry_ok (clients s) -> clients s !! ws = Some c ->
  registry_ok (clients (on_register env ws c data s).1).
Proof.
  intros Hok Hc. unfold on_register.
  destruct (registered c); [done|].
  set (nick := sanitizeNick _).
  destruct (Nat.ltb_spec (length nick) 2); [done|].
  destruct (Nat.ltb_spec 24 (length nick)); [done|].
  destruct (isNickTaken _ _ _) eqn:Htaken; [done|].
  destruct (is_bad_nick nick) eqn:Hbad; [done|].
  cbn [fst]. rewrite clients_scheduleOnlineBroadcast. cbn [clients set_chatHistory set_clients].
  apply registry_ok_register; try done.
  split; [apply sanitizeNick_idempotent|]. split; [lia | done].
Qed.

Lemma on_message_registry_ok env ws raw s :
  registry_ok (clients s) -> registry_ok (clients (on_message env ws raw s).1).
Proof.
  intros Hok. unfold on_message.
  destruct raw as [|data]; [done|].
  destruct (clients s !! ws) as [c|] eqn:Hc; [|done].
  destruct (data_type data); try done.
  - by apply on_register_registry_ok.
  - unfold on_chat. repeat case_match; done.
  - unfold on_win. repeat case_match; done.
Qed.

Lemma on_close_clients env ws s :
  clients (on_close env ws s).1 = delete ws (clients s).
Proof.
  unfold on_close. destruct (clients s !! ws) as [c|] eqn:Hc.
  - destruct (registered c); [destruct (nickname c) as [n|]; [case_bool_decide|]|];
      cbn [fst]; by rewrite clients_scheduleOnlineBroadcast.
  - cbn [fst]. rewrite clients_scheduleOnlineBroadcast.
    symmetry. by apply delete_id.
Qed.

(** Every input the server can receive keeps the registry well formed. *)
Lemma step_registry_ok env i s :
  registry_ok (clients s) -> admissible env i s ->
  registry_ok (clients (step env i s).1).
Proof.
  intros Hok Hadm. destruct i as [ws remote|ws raw|ws|ws r| | | |]; cbn [step].
  - destruct Hadm as (_ & Hnew & Hid).
    unfold on_connection. case_match; [done|].
    cbn [fst]. rewrite clients_scheduleOnlineBroadcast.
    cbn [clients set_clients lib_add set_wss_clients].
    by apply registry_ok_admit.
  - by apply on_message_registry_ok.
  - case_match; [|done].
    rewrite on_close_clients. by apply registry_ok_delete.
  - done.
  - done.
  - done.
  - done.
  - done.
Qed.

Lemma reachable_registry_ok s : reachable s -> registry_ok (clients s).
Proof.
  induction 1 as [|env i s Hs IH Hadm].
  - apply registry_ok_empty.
  - by apply step_registry_ok.
Qed.

(** C2. Session A holds the nickname [N]; session B, another session that is
    not registered, sends a register message whose nickname, once
    sanitized, is an admissible one (two code units or more) and equals [N]
    up to case.  The handler answers B with the duplicate-nickname error and
    changes nothing: B's entry is as before, unregistered. *)
Theorem duplicate_nickname_is_rejected :
  forall env s wa a N wb b data,
    clients s !! wa = Some a ->
    registered a = true ->
    nickname a = Some N ->
    N <> [] ->
    clients s !! wb = Some b ->
    registered b = false ->
    id a <> id b ->
    data_type data = TRegister ->
    let nick := sanitizeNick (or_else (data_nickname data) (JString [])) in
    (2 <= length nick)%nat ->
    toLowerCase nick = toLowerCase N ->
    let '(s', calls) := step env (Message wb (Decoded data)) s in
    s' = s /\
    calls = [CSendTo wb (RegisterErr NickTaken)] /\
    clients s' !! wb = Some b /\
    (ready (wss_clients s) wb = OPEN ->
     deliver (wss_clients s) calls = [(wb, RegisterErr NickTaken)]).
Proof.
  intros env s wa a N wb b data Ha Hra Hna HN Hb Hrb Hid Hty nick Hlen Hlow.
  cbn [step]. rewrite (on_message_decoded _ _ _ _ _ Hb), Hty.
  unfold on_register. rewrite Hrb. fold nick.
  destruct (Nat.ltb_spec (length nick) 2); [lia|].
  pose proof (length_sanitizeNick (or_else (data_nickname data) (JString []))).
  destruct (Nat.ltb_spec 24 (length nick)); [subst nick; lia|].
  assert (isNickTaken nick (id b) (clients s) = true) as ->.
  { apply isNickTaken_true. by exists wa, a, N. }
  repeat split; try done.
  intros Hopen. unfold deliver. cbn [flat_map perform]. unfold sendTo.
  by rewrite Hopen.
Qed.

(** A session that is not registered gets a nickname that is a stored form
    and that nobody holds. *)
Lemma register_free_nick env s wb b n :
  clients s !! wb = Some b ->
  registered b = false ->
  good_nick n ->
  (forall w c n', clients s !! w = Some c -> nickname c = Some n' ->
                  toLowerCase n' <> toLowerCase n) ->
  let join := SystemMessage (JoinText n) (formatTime env) in
  let '(s', calls) := step env (Message wb (registerAs n)) s in
  clients s' = <[wb := {| id := id b; nickname := Some n; ip := ip b;
                          registered := true |}]> (clients s) /\
  chatHistory s' = pushBounded (chatHistory s) join MAX_CHAT /\
  calls = [CSendTo wb (RegisterOk n (id b)); CBroadcast (Event join) None].
Proof.
  intros Hb Hrb (Hsan & Hlen & Hbad) Hfree join.
  cbn [step]. unfold registerAs. rewrite (on_message_decoded _ _ _ _ _ Hb).
  cbn [data_type]. unfold on_register. rewrite Hrb. cbn [data_nickname].
  assert (or_else (JString n) (JString []) = JString n) as ->.
  { unfold or_else. cbn [truthy]. case_bool_decide as Hn; [|done].
    subst n. simpl in Hlen. lia. }
  rewrite Hsan.
  destruct (Nat.ltb_spec (length n) 2); [lia|].
  destruct (Nat.ltb_spec 24 (length n)); [lia|].
  rewrite (isNickTaken_false _ _ _ Hfree), Hbad.
  fold join. unfold scheduleOnlineBroadcast. by case_match.
Qed.

(** C9. A registered session of a reachable state closes.  Exactly one
    departure message is appended to the chat buffer: it is put at the tail,
    the entries before it are the buffer's own, less the oldest when the
    buffer was full, and the win buffer is untouched.  The message is
    broadcast to every open connection the server still holds and never to
    the closed one; the session's entry and its rate-limit state are
    deleted.  After
    that the nickname is free: a session that was waiting unregistered, or a
    new connection admitted afterwards, registers it successfully. *)
Theorem departure_frees_the_nickname :
  forall env ws client s,
    reachable s ->
    clients s !! ws = Some client ->
    registered client = true ->
    let '(s', calls) := step env (Closed ws) s in
    exists n,
      nickname client = Some n /\
      let bye := SystemMessage (ByeText n) (formatTime env) in
      chatHistory s' =
        (if (length (chatHistory s) <? MAX_CHAT)%nat
         then chatHistory s else tail (chatHistory s)) ++ [bye] /\
      chatHistory s' = pushBounded (chatHistory s) bye MAX_CHAT /\
      winHistory s' = winHistory s /\
      calls = [CBroadcast (Event bye) (Some ws)] /\
      (forall w f, (w, f) ∈ deliver (wss_clients s') calls <->
         f = Event bye /\ w <> ws /\
         exists x, x ∈ wss_clients s /\ wsid x = w /\ readyState x = OPEN) /\
      clients s' = delete ws (clients s) /\
      rateLimits s' = delete (id client) (rateLimits s) /\
      (forall env' wb b,
         clients s' !! wb = Some b -> registered b = false ->
         let '(s2, calls2) := step env' (Message wb (registerAs n)) s' in
         clients s2 !! wb =
           Some {| id := id b; nickname := Some n; ip := ip b;
                   registered := true |} /\
         calls2 = [CSendTo wb (RegisterOk n (id b));
                   CBroadcast (Event (SystemMessage (JoinText n)
                                        (formatTime env'))) None]) /\
      (forall env1 env2 wb remote,
         admissible env1 (Connection wb remote) s' ->
         (length (wss_clients s') < MAX_CLIENTS)%nat ->
         let s1 := (step env1 (Connection wb remote) s').1 in
         let '(s2, calls2) := step env2 (Message wb (registerAs n)) s1 in
         clients s2 !! wb =
           Some {| id := uuidv4 env1; nickname := Some n; ip := remote;
                   registered := true |} /\
         calls2 = [CSendTo wb (RegisterOk n (uuidv4 env1));
                   CBroadcast (Event (SystemMessage (JoinText n)
                                        (formatTime env2))) None]).
Proof.
  intros env ws client s Hreach Hc Hreg.
  pose proof (reachable_registry_ok _ Hreach) as Hok.
  destruct (ok_registered _ Hok _ _ Hc Hreg) as [n Hn].
  destruct (ok_nickname _ Hok _ _ _ Hc Hn) as (Hsan & Hlen & Hbad).
  assert (Hne : n <> []) by (intros ->; simpl in Hlen; lia).
  cbn [step]. cbn [clients lib_remove set_wss_clients]. rewrite Hc.
  unfold on_close. cbn [clients lib_remove set_wss_clients]. rewrite Hc, Hreg, Hn.
  rewrite bool_decide_eq_false_2 by done.
  set (bye := SystemMessage (ByeText n) (formatTime env)).
  set (s' := scheduleOnlineBroadcast _).
  assert (Hcl : clients s' = delete ws (clients s)).
  { subst s'. by rewrite clients_scheduleOnlineBroadcast. }
  assert (Hfree : forall w c n', clients s' !! w = Some c ->
                    nickname c = Some n' ->
                    toLowerCase n' <> toLowerCase n).
  { intros w c n'. rewrite Hcl, lookup_delete_Some. intros [Hw Hc'] Hn' Hlow.
    apply Hw. symmetry. by eapply (ok_unique _ Hok). }
  exists n. split; [done|]. cbn zeta.
  split.
  { subst s'. unfold scheduleOnlineBroadcast. case_match;
      cbn [chatHistory set_broadcastTimer set_clients set_rateLimits
             set_chatHistory lib_remove set_wss_clients];
      apply pushBounded_explicit; unfold MAX_CHAT; lia. }
  split; [subst s'; unfold scheduleOnlineBroadcast; by case_match|].
  split; [subst s'; unfold scheduleOnlineBroadcast; by case_match|].
  split; [done|].
  split.
  { intros w f. unfold deliver. cbn [flat_map perform]. rewrite app_nil_r.
    assert (wss_clients s' =
            List.filter (fun x => negb (wsid x =? ws)%nat) (wss_clients s)) as ->.
    { subst s'. unfold scheduleOnlineBroadcast. by case_match. }
    rewrite elem_of_broadcast. cbn [is_excluded].
    split.
    - intros (-> & Hex & x & Hx & Hw & Ho).
      split; [done|]. split; [by apply Nat.eqb_neq|].
      exists x. split; [|done].
      apply list_elem_of_In, filter_In in Hx as [Hx _]. by apply list_elem_of_In.
    - intros (-> & Hw & x & Hx & Hwx & Ho).
      split; [done|]. split; [by apply Nat.eqb_neq|].
      exists x. split; [|done].
      apply list_elem_of_In, filter_In. split; [by apply list_elem_of_In|].
      apply negb_true_iff, Nat.eqb_neq. congruence. }
  split; [done|].
  split; [subst s'; unfold scheduleOnlineBroadcast; by case_match|].
  split.
  - intros env' wb b Hb Hrb.
    pose proof (register_free_nick env' s' wb b n Hb Hrb
                  (conj Hsan (conj Hlen Hbad)) Hfree) as Hstep.
    cbn [step] in Hstep.
    destruct (on_message env' wb (registerAs n) s') as [s2 calls2].
    destruct Hstep as (Hcl2 & _ & Hcalls2). cbv beta iota.
    by rewrite Hcl2, Hcalls2, lookup_insert_eq.
  - intros env1 env2 wb remote (_ & Hnew & Hid) Hroom.
    set (s1 := (on_connection env1 wb remote (lib_add wb s')).1).
    assert (Hs1 : clients s1 =
              <[wb := {| id := uuidv4 env1; nickname := None; ip := remote;
                         registered := false |}]> (clients s')).
    { subst s1. unfold on_connection.
      destruct (Nat.ltb_spec MAX_CLIENTS (length (wss_clients (lib_add wb s')))) as [Hfull|_].
      - unfold lib_add in Hfull. cbn [wss_clients set_wss_clients] in Hfull.
        rewrite length_app in Hfull. simpl in Hfull. lia.
      - cbn [fst]. by rewrite clients_scheduleOnlineBroadcast. }
    assert (Hb : clients s1 !! wb =
              Some {| id := uuidv4 env1; nickname := None; ip := remote;
                      registered := false |}).
    { by rewrite Hs1, lookup_insert_eq. }
    assert (Hfree1 : forall w c n', clients s1 !! w = Some c ->
                       nickname c = Some n' ->
                       toLowerCase n' <> toLowerCase n).
    { intros w c n'. rewrite Hs1, lookup_insert_Some.
      intros [[_ <-] | [_ Hc']]; [done | by eapply Hfree]. }
    pose proof (register_free_nick env2 s1 wb _ n Hb eq_refl
                  (conj Hsan (conj Hlen Hbad)) Hfree1) as Hstep.
    cbn [step] in Hstep.
    destruct (on_message env2 wb (registerAs n) s1) as [s2 calls2].
    destruct Hstep as (Hcl2 & _ & Hcalls2). cbv beta iota.
    by rewrite Hcl2, Hcalls2, lookup_insert_eq.
Qed.

End RegistryProperties.

(** ** The theorems at concrete inputs *)

Lemma twoSessions_reachable : @reachable asciiRuntime twoSessions.
Proof.
  unfold twoSessions, runFrom. cbn [foldl fst snd].
  apply reachable_step; [apply reachable_step; [apply reachable_step|]|].
  - apply reachable_initial.
  - split; [|split].
    + intros x Hx. by apply elem_of_nil in Hx.
    + done.
    + intros w c Hc. unfold initial in Hc. cbn [clients] in Hc.
      by rewrite lookup_empty in Hc.
  - done.
  - split; [|split].
    + intros x Hx. vm_compute in Hx.
      apply list_elem_of_singleton in Hx as ->. done.
    + by vm_compute.
    + intros w c Hc. apply elem_of_map_to_list in Hc. vm_compute in Hc.
      apply list_elem_of_singleton in Hc. injection Hc as -> ->. done.
Qed.

(** Seven checks of one session within six seconds: six allowed, the seventh
    denied. *)
Lemma rate_limit_witness :
  (runChecks 7 [0; 1000; 2000; 3000; 4000; 5000; 6000] ∅).1 =
    [true; true; true; true; true; true; false].
Proof.
  pose proof (rate_limit_six_per_window 7 ∅ 0 [1000; 2000; 3000; 4000; 5000; 6000]
                I ltac:(repeat (apply List.Forall_cons; [unfold RL_WINDOW; lia|]);
                        apply List.Forall_nil)) as Hw.
  destruct (runChecks 7 [0; 1000; 2000; 3000; 4000; 5000; 6000] ∅) as [oks rl'].
  destruct Hw as (_ & _ & Hoks & _). exact Hoks.
Defined.

(** Alex, registered, asks to register as Bob: nothing happens. *)
Lemma register_twice_witness :
  @step asciiRuntime env2 (Message 1%nat (registerAs (lit "Bob"))) twoSessions =
    (twoSessions, []).
Proof.
  pose proof (@register_when_registered_is_ignored asciiRuntime env2 1%nat alex
                {| data_type := TRegister; data_nickname := JString (lit "Bob");
                   data_text := JUndefined; data_amount := JUndefined;
                   data_game := JUndefined |} twoSessions
                ltac:(by vm_compute) eq_refl eq_refl) as Hw.
  fold (registerAs (lit "Bob")) in Hw.
  destruct (@step asciiRuntime env2 (Message 1%nat (registerAs (lit "Bob"))) twoSessions)
    as [s' calls].
  destruct Hw as (-> & -> & _). reflexivity.
Defined.

(** The guest asks for the name of Alex in lower case. *)
Lemma duplicate_nickname_witness :
  @step asciiRuntime env2 (Message 2%nat (registerAs (lit "alex"))) twoSessions =
    (twoSessions, [CSendTo 2%nat (RegisterErr NickTaken)]).
Proof.
  pose proof (@duplicate_nickname_is_rejected asciiRuntime env2 twoSessions
                1%nat alex (lit "Alex") 2%nat guest
                {| data_type := TRegister; data_nickname := JString (lit "alex");
                   data_text := JUndefined; data_amount := JUndefined;
                   data_game := JUndefined |}
                ltac:(by vm_compute) eq_refl eq_refl ltac:(done)
                ltac:(by vm_compute) eq_refl ltac:(done) eq_refl
                ltac:(vm_compute; lia) eq_refl) as Hw.
  fold (registerAs (lit "alex")) in Hw.
  destruct (@step asciiRuntime env2 (Message 2%nat (registerAs (lit "alex"))) twoSessions)
    as [s' calls].
  destruct Hw as (-> & -> & _). reflexivity.
Defined.



(** Alex chats, then reports a win of 750: the chat entry, the win entry and
    the announcement each reach Alex and the guest, and end their buffers. *)
Lemma chat_echo_witness :
  let msg := ChatMsg 9 7 (Some (lit "Alex")) (lit "hi") (lit "12:02") in
  let win := WinMsg 7 (Some (lit "Alex")) (of_Z 750) default_game (lit "12:02") in
  let sys := SystemMessage (BigWinText (Some (lit "Alex")) (of_Z 750) default_game)
               (lit "12:02") in
  (let '(s', calls) :=
     @step asciiRuntime env2 (Message 1%nat (chatText (lit "hi"))) twoSessions in
   calls = [CBroadcast (Event msg) None] /\
   deliver (wss_clients twoSessions) calls =
     [(1%nat, Event msg); (2%nat, Event msg)] /\
   (1%nat, Event msg) ∈ deliver (wss_clients twoSessions) calls /\
   last (chatHistory s') = Some msg) /\
  (let '(s', calls) :=
     @step asciiRuntime env2 (Message 1%nat (winOf (JNumber (of_Z 750)))) twoSessions in
   calls = [CBroadcast (Event win) None; CBroadcast (Event sys) None] /\
   deliver (wss_clients twoSessions) calls =
     [(1%nat, Event win); (2%nat, Event win);
      (1%nat, Event sys); (2%nat, Event sys)] /\
   (1%nat, Event win) ∈ deliver (wss_clients twoSessions) calls /\
   last (winHistory s') = Some win /\
   last (chatHistory s') = Some sys).
Proof.
  intros msg win sys.
  assert (Hopen : ready (wss_clients twoSessions) 1%nat = OPEN) by by vm_compute.
  split.
  - pose proof (@chat_and_win_reach_every_open_connection asciiRuntime env2 1%nat alex
                  {| data_type := TChat; data_nickname := JUndefined;
                     data_text := JString (lit "hi"); data_amount := JUndefined;
                     data_game := JUndefined |} twoSessions
                  ltac:(by vm_compute) (or_introl eq_refl)) as Hw.
    fold (chatText (lit "hi")) in Hw. cbv zeta in Hw.
    destruct (@step asciiRuntime env2 (Message 1%nat (chatText (lit "hi"))) twoSessions)
      as [s' calls].
    destruct Hw as (_ & _ & _ & _ & _ & Hchat & _).
    destruct (Hchat eq_refl eq_refl ltac:(by vm_compute) ltac:(by vm_compute))
      as (Hcalls & Hdel & Hecho & Hlast).
    split; [rewrite Hcalls; by vm_compute|].
    split; [rewrite Hdel; by vm_compute|].
    split; [exact (Hecho Hopen) | rewrite Hlast; by vm_compute].
  - pose proof (@chat_and_win_reach_every_open_connection asciiRuntime env2 1%nat alex
                  {| data_type := TWin; data_nickname := JUndefined;
                     data_text := JUndefined; data_amount := JNumber (of_Z 750);
                     data_game := JUndefined |} twoSessions
                  ltac:(by vm_compute) (or_intror eq_refl)) as Hw.
    fold (winOf (JNumber (of_Z 750))) in Hw. cbv zeta in Hw.
    destruct (@step asciiRuntime env2 (Message 1%nat (winOf (JNumber (of_Z 750)))) twoSessions)
      as [s' calls].
    destruct Hw as (_ & _ & _ & _ & _ & _ & Hwin).
    destruct (Hwin eq_refl eq_refl 750 ltac:(by vm_compute) ltac:(lia))
      as (Hcalls & Hdel & Hecho & Hwins & Hbig).
    split; [rewrite Hcalls; by vm_compute|].
    split; [rewrite Hdel; by vm_compute|].
    split; [exact (Hecho Hopen)|].
    split; [rewrite Hwins; by vm_compute | rewrite (Hbig ltac:(lia)); by vm_compute].
Defined.

(** Alex leaves: the departure message is the new last entry of the chat
    buffer; the guest then registers as Alex. *)
Lemma departure_witness :
  let bye := SystemMessage (ByeText (lit "Alex")) (lit "12:02") in
  let '(s', calls) := @step asciiRuntime env2 (Closed 1%nat) twoSessions in
  calls = [CBroadcast (Event bye) (Some 1%nat)] /\
  chatHistory s' = chatHistory twoSessions ++ [bye] /\
  clients s' !! 1%nat = None /\
  (@step asciiRuntime env2 (Message 2%nat (registerAs (lit "Alex"))) s').2 =
    [CSendTo 2%nat (RegisterOk (lit "Alex") 8);
     CBroadcast (Event (SystemMessage (JoinText (lit "Alex")) (lit "12:02"))) None].
Proof.
  pose proof (@departure_frees_the_nickname asciiRuntime env2 1%nat alex twoSessions
                twoSessions_reachable ltac:(by vm_compute) eq_refl) as Hw.
  destruct (@step asciiRuntime env2 (Closed 1%nat) twoSessions) as [s' calls].
  destruct Hw as (n & Hn & Hchat & _ & _ & Hcalls & _ & Hcl & _ & Hwait & _).
  assert (n = lit "Alex") as -> by (unfold alex in Hn; cbn [nickname] in Hn; congruence).
  cbv zeta.
  split; [exact Hcalls|]. split; [rewrite Hchat; by vm_compute|].
  split; [by rewrite Hcl, lookup_delete_eq|].
  assert (Hguest : clients s' !! 2%nat = Some guest).
  { rewrite Hcl. by vm_compute. }
  specialize (Hwait env2 2%nat guest Hguest eq_refl).
  destruct (@step asciiRuntime env2 (Message 2%nat (registerAs (lit "Alex"))) s')
    as [s2 calls2].
  destruct Hwait as [_ ->]. reflexivity.
Defined.


(** * Further properties of the code *)

(** ** Nicknames *)

(** X1. Whatever it is given, [sanitizeNick] returns a nickname in normal
    form: at most 24 code units, none of the removed characters, white space
    only as single spaces and never at either end; and it returns such a
    nickname unchanged. *)
Theorem sanitizeNick_normal_form :
  forall v,
    let n := sanitizeNick v in
    (length n <= 24)%nat /\
    Forall (fun c => nick_stripped c = false) n /\
    single_spaced false n /\
    starts_clean n /\ starts_clean (rev n) /\
    sanitizeNick (JString n) = n.
Proof.
  intros v n.
  split; [apply length_sanitizeNick|].
  split; [|split; [|split; [|split; [|apply sanitizeNick_idempotent]]]];
    subst n; destruct v as [| | | |s|]; try (by constructor).
  - apply Forall_trim, Forall_collapseFrom; [done | apply removeAll_clean].
  - apply single_spaced_trim, collapseFrom_single_spaced.
  - apply trimEnd_clean, trimStart_clean.
  - cbn [sanitizeNick]. unfold trim, trimEnd. rewrite rev_involutive.
    apply trimStart_clean.
Qed.

(** ** Rate limiter *)

(** X2. Windows are per session: a check of one session leaves the entry of
    every other session as it was, and so does not change the verdict of the
    other session's next check. *)
Theorem checkRate_sessions_are_independent :
  forall now now' a b (rl : gmap nat RateState),
    a <> b ->
    (checkRate now a rl).2 !! b = rl !! b /\
    (checkRate now' b (checkRate now a rl).2).1 = (checkRate now' b rl).1.
Proof.
  intros now now' a b rl Hab.
  assert (Hb : (checkRate now a rl).2 !! b = rl !! b).
  { unfold checkRate. cbn [snd]. by rewrite lookup_insert_ne. }
  split; [done|].
  unfold checkRate at 1 3. cbn [fst]. by rewrite Hb.
Qed.

Lemma checkRate_independent_witness :
  (checkRate 5 1 (checkRate 0 2 ∅).2).1 = (checkRate 5 1 ∅).1.
Proof.
  apply (checkRate_sessions_are_independent 0 5 2%nat 1%nat ∅). lia.
Defined.

(** X3. The sweep removes only windows that have already expired: a check
    made at or after the sweep's clock gives the same verdict, and leaves
    the same entry for the session, as if there had been no sweep. *)
Theorem rate_sweep_keeps_verdicts :
  forall env s now' clientId,
    now env <= now' ->
    let swept := rateLimits (on_rateSweep env s) in
    (checkRate now' clientId swept).1 = (checkRate now' clientId (rateLimits s)).1 /\
    (checkRate now' clientId swept).2 !! clientId =
      (checkRate now' clientId (rateLimits s)).2 !! clientId /\
    (forall k r, swept !! k = Some r ->
       rateLimits s !! k = Some r /\ now env - t r <= RL_WINDOW * 5).
Proof.
  intros env s now' k Hnow swept.
  assert (Hsw : forall j, swept !! j =
            match rateLimits s !! j with
            | Some r => if decide (t r < now env - RL_WINDOW * 5) then None else Some r
            | None => None
            end).
  { intros j. subst swept. unfold on_rateSweep. cbn [rateLimits set_rateLimits].
    destruct (rateLimits s !! j) as [r|] eqn:Hj.
    - destruct (decide (t r < now env - RL_WINDOW * 5)) as [Hold|Hnew].
      + apply map_lookup_filter_None. right. intros r' Hr'. cbn [snd].
        assert (r' = r) as -> by congruence. tauto.
      + apply map_lookup_filter_Some. split; [done|]. by cbn [snd].
    - apply map_lookup_filter_None. by left. }
  assert (Hcur : forall rl1 rl2 : gmap nat RateState,
            match rl1 !! k, rl2 !! k with
            | Some r1, Some r2 => r1 = r2
            | None, None => True
            | None, Some r | Some r, None => RL_WINDOW < now' - t r
            end ->
            (checkRate now' k rl1).1 = (checkRate now' k rl2).1 /\
            (checkRate now' k rl1).2 !! k = (checkRate now' k rl2).2 !! k).
  { intros rl1 rl2 Hrel. unfold checkRate. cbn [fst snd].
    rewrite !lookup_insert_eq.
    destruct (rl1 !! k) as [r1|], (rl2 !! k) as [r2|]; try subst r2; try done.
    - destruct (Z.ltb_spec RL_WINDOW (now' - t r1)); [done | lia].
    - destruct (Z.ltb_spec RL_WINDOW (now' - t r2)); [done | lia]. }
  split; [|split].
  - apply Hcur. rewrite Hsw.
    destruct (rateLimits s !! k) as [r|]; [|done].
    destruct (decide _); [|done]. unfold RL_WINDOW in *. lia.
  - apply Hcur. rewrite Hsw.
    destruct (rateLimits s !! k) as [r|]; [|done].
    destruct (decide _); [|done]. unfold RL_WINDOW in *. lia.
  - intros j r. rewrite Hsw.
    destruct (rateLimits s !! j) as [r'|]; [|done].
    destruct (decide _); [done|]. intros [= ->]. split; [done | lia].
Qed.

Lemma rate_sweep_witness :
  (checkRate 60000 7 (rateLimits (on_rateSweep
       {| now := 60000; uuidv4 := 0%nat; formatTime := [] |} sixChats))).1 =
  (checkRate 60000 7 (rateLimits sixChats)).1.
Proof.
  apply (rate_sweep_keeps_verdicts
           {| now := 60000; uuidv4 := 0%nat; formatTime := [] |} sixChats 60000 7%nat).
  simpl. lia.
Defined.

(** ** Online count and the debounce timer *)

Lemma getOnlineCount_filter W :
  getOnlineCount W = length (List.filter (fun x => is_open (readyState x)) W).
Proof.
  induction W as [|x W IH]; [done|].
  simpl. destruct (is_open (readyState x)); simpl; by rewrite IH.
Qed.

(** X4. The number in an [online_count] frame is the number of sockets the
    frame is sent to: the debounce timer's callback makes one broadcast, the
    count it carries equals the number of sends, every send carries that
    frame, and the timer is cleared while nothing else changes. *)
Theorem online_count_is_the_number_of_recipients :
  forall s,
    let '(s', calls) := on_broadcastTimer s in
    let n := getOnlineCount (wss_clients s) in
    calls = [CBroadcast (OnlineCount n) None] /\
    length (deliver (wss_clients s) calls) = n /\
    Forall (fun p => p.2 = OnlineCount n) (deliver (wss_clients s) calls) /\
    (n <= length (wss_clients s))%nat /\
    s' = set_broadcastTimer false s.
Proof.
  intros s. cbn [on_broadcastTimer].
  split; [done|]. unfold deliver. cbn [flat_map perform]. rewrite app_nil_r.
  rewrite broadcastAll_recipients, getOnlineCount_filter.
  split; [by rewrite length_map|]. split; [|split; [|done]].
  - apply Forall_forall. intros p (x & -> & _)%list_elem_of_fmap. done.
  - apply filter_length_le.
Qed.




(** ** Memory watchdog and the read-only endpoints *)

Lemma shiftWhileOver_sliceLast {A} n (arr : list A) :
  shiftWhileOver n arr = sliceLast n arr.
Proof.
  induction arr as [|x arr IH]; [done|].
  cbn [shiftWhileOver]. destruct (Nat.ltb_spec n (length (x :: arr))) as [Hlt|Hge].
  - rewrite IH. unfold sliceLast. cbn [length] in *.
    replace (S (length arr) - n)%nat with (S (length arr - n)) by lia. done.
  - symmetry. by apply sliceLast_length_le.
Qed.

Lemma sliceLast_sliceLast {A} k n (arr : list A) :
  (k <= n)%nat -> sliceLast k (sliceLast n arr) = sliceLast k arr.
Proof.
  intros Hkn. unfold sliceLast. rewrite drop_drop, length_drop. f_equal. lia.
Qed.

(** X6. The watchdog's trim is the shifting loop of the source run on both
    buffers: each buffer keeps its last 20 entries in order (all of them
    when it has 20 or fewer), nothing else in the state changes, what
    [GET /api/wins] returns and the win part of an init snapshot are the
    same as before, and a buffer within 20 entries is left as it is. *)
Theorem memory_trim_keeps_the_last_twenty :
  forall s,
    let s' := on_memoryTrim s in
    chatHistory s' = shiftWhileOver 20 (chatHistory s) /\
    winHistory s' = shiftWhileOver 20 (winHistory s) /\
    length (chatHistory s') = Nat.min (length (chatHistory s)) 20 /\
    length (winHistory s') = Nat.min (length (winHistory s)) 20 /\
    (exists old, chatHistory s = old ++ chatHistory s') /\
    (exists old, winHistory s = old ++ winHistory s') /\
    s' = set_winHistory (winHistory s') (set_chatHistory (chatHistory s') s) /\
    api_wins s' = api_wins s /\
    sliceLast 15 (winHistory s') = sliceLast 15 (winHistory s) /\
    on_memoryTrim s' = s'.
Proof.
  intros s s'. subst s'. unfold on_memoryTrim, api_wins.
  cbn [chatHistory winHistory set_winHistory set_chatHistory].
  rewrite !shiftWhileOver_sliceLast, !length_sliceLast.
  repeat split.
  - exists (take (length (chatHistory s) - 20) (chatHistory s)).
    unfold sliceLast. by rewrite take_drop.
  - exists (take (length (winHistory s) - 20) (winHistory s)).
    unfold sliceLast. by rewrite take_drop.
  - by apply sliceLast_sliceLast.
  - apply sliceLast_sliceLast. lia.
  - rewrite !(sliceLast_length_le (sliceLast 20 _))
      by (rewrite length_sliceLast; lia). done.
Qed.

(** ** Keepalive *)

(** X7. The ping interval.  A round terminates exactly the sockets whose
    flag is down and pings the others, lowering their flag.  So a second
    round with no pong in between terminates every socket, while a socket
    that answered with a pong after the first round is pinged again. *)
Theorem heartbeat_terminates_silent_sockets :
  forall (W : list Peer) (ws : nat),
    let '(W1, probes1) := heartbeat W in
    probes1 = map (fun x => if isAlive x then Ping (peer x)
                            else Terminate (peer x)) W /\
    map peer W1 = map peer W /\
    Forall (fun x => isAlive x = false) W1 /\
    (heartbeat W1).2 = map (fun x => Terminate (peer x)) W /\
    (heartbeat (on_pong ws W1)).2 =
      map (fun x => if (peer x =? ws)%nat then Ping ws
                    else Terminate (peer x)) W.
Proof.
  intros W ws. unfold heartbeat. cbn [fst snd].
  split; [|split; [|split; [|split]]].
  - apply map_ext. intros [p []]; done.
  - rewrite map_map. apply map_ext. intros [p []]; done.
  - apply Forall_forall. intros x (y & -> & _)%list_elem_of_fmap.
    by destruct y as [p []].
  - rewrite map_map. apply map_ext. intros [p []]; done.
  - unfold on_pong. rewrite !map_map. apply map_ext. intros [p a].
    destruct a; cbn; destruct (Nat.eqb_spec p ws); subst; done.
Qed.

(** ** The dispatcher *)

Lemma startsWith_spec p s :
  startsWith p s = true <-> exists post, s = p ++ post.
Proof.
  revert s. induction p as [|a p IH]; intros s; simpl.
  - split; [by exists s | done].
  - destruct s as [|b s]; [split; [done | by intros [? ?]]|].
    rewrite andb_true_iff, N.eqb_eq, IH. split.
    + intros [-> [post ->]]. by exists post.
    + intros [post [= -> ->]]. split; [done | by exists post].
Qed.

(** [includes] is the substring test. *)
Lemma includes_spec s p :
  includes s p = true <-> exists pre post, s = pre ++ p ++ post.
Proof.
  induction s as [|c s IH]; cbn [includes]; rewrite orb_true_iff, startsWith_spec.
  - split.
    + intros [[post Hs] | ?]; [|done]. by exists [], post.
    + intros (pre & post & Hs). left.
      destruct pre; [by exists post | done].
  - rewrite IH. split.
    + intros [[post Hs] | (pre & post & ->)].
      * by exists [], post.
      * by exists (c :: pre), post.
    + intros (pre & post & Hs). destruct pre as [|c' pre].
      * left. by exists post.
      * right. injection Hs as -> ->. by exists pre, post.
Qed.

(** Membership in an explicit list of calls. *)
Ltac in_list H :=
  repeat (apply elem_of_cons in H as [H|H]);
  first [ discriminate H | by apply elem_of_nil in H | idtac ].

Section DispatcherProperties.

Context `{Runtime}.

(** X8. The reply ['Максимум 24 символа'] is never sent: [sanitizeNick]
    has already cut the nickname to 24 code units when its length is
    tested.  No input of the server produces that frame, to anyone. *)
Theorem too_long_reply_is_never_sent :
  forall env i s w ex,
    (CSendTo w (RegisterErr TooLong) ∉ (step env i s).2) /\
    (CBroadcast (RegisterErr TooLong) ex ∉ (step env i s).2).
Proof.
  intros env i s w ex.
  assert (Hmsg : forall ws raw c,
            c ∈ (on_message env ws raw s).2 ->
            c <> CSendTo w (RegisterErr TooLong) /\
            c <> CBroadcast (RegisterErr TooLong) ex).
  { intros ws raw c Hin. unfold on_message in Hin.
    destruct raw as [|data]; [in_list Hin|].
    destruct (clients s !! ws) as [client|]; [|in_list Hin].
    destruct (data_type data).
    - unfold on_register in Hin.
      destruct (registered client); [in_list Hin|].
      destruct (Nat.ltb_spec (length (sanitizeNick
                  (or_else (data_nickname data) (JString [])))) 2);
        [in_list Hin; by subst|].
      destruct (Nat.ltb_spec 24 (length (sanitizeNick
                  (or_else (data_nickname data) (JString []))))) as [Hlong|_].
      { pose proof (length_sanitizeNick (or_else (data_nickname data) (JString []))).
        lia. }
      repeat case_match; in_list Hin; by subst.
    - unfold on_chat in Hin. repeat case_match; in_list Hin; by subst.
    - unfold on_win in Hin. repeat case_match; in_list Hin; by subst.
    - in_list Hin; by subst.
    - in_list Hin. }
  assert (Hall : forall c, c ∈ (step env i s).2 ->
            c <> CSendTo w (RegisterErr TooLong) /\
            c <> CBroadcast (RegisterErr TooLong) ex).
  { intros c Hin. destruct i as [ws r|ws r|ws|ws r| | | |]; cbn [step] in Hin.
    - unfold on_connection in Hin. case_match; in_list Hin; by subst.
    - by eapply Hmsg.
    - case_match; [|in_list Hin]. unfold on_close in Hin.
      repeat case_match; simplify_eq; in_list Hin; by subst.
    - in_list Hin.
    - cbn [on_broadcastTimer snd] in Hin. in_list Hin; by subst.
    - cbn [on_countInterval snd] in Hin. in_list Hin; by subst.
    - in_list Hin.
    - in_list Hin. }
  split; intros Hin; apply Hall in Hin; tauto.
Qed.

(** X9. Reserved names.  An unregistered session asks for a nickname that,
    once sanitized, is long enough and not taken, and whose lower-case form
    contains one of [BAD_NICKS] as a substring: the handler answers with the
    forbidden-nickname error and changes nothing. *)
Theorem reserved_nickname_is_refused :
  forall env ws b data s bad pre post,
    clients s !! ws = Some b ->
    registered b = false ->
    data_type data = TRegister ->
    let nick := sanitizeNick (or_else (data_nickname data) (JString [])) in
    (2 <= length nick)%nat ->
    isNickTaken nick (id b) (clients s) = false ->
    bad ∈ BAD_NICKS ->
    toLowerCase nick = pre ++ bad ++ post ->
    step env (Message ws (Decoded data)) s =
      (s, [CSendTo ws (RegisterErr NickForbidden)]).
Proof.
  intros env ws b data s bad pre post Hb Hrb Hty nick Hlen Hfree Hbad Hlow.
  cbn [step]. rewrite (on_message_decoded _ _ _ _ _ Hb), Hty.
  unfold on_register. rewrite Hrb. fold nick.
  destruct (Nat.ltb_spec (length nick) 2); [lia|].
  pose proof (length_sanitizeNick (or_else (data_nickname data) (JString []))).
  destruct (Nat.ltb_spec 24 (length nick)); [subst nick; lia|].
  rewrite Hfree.
  assert (is_bad_nick nick = true) as ->; [|done].
  unfold is_bad_nick. apply existsb_exists. exists bad.
  split; [by apply list_elem_of_In|].
  apply includes_spec. by exists pre, post.
Qed.

(** X10. A message touches only its sender.  Whatever the frame, the
    sockets are as before, the same connections have an entry, every other
    connection's entry is unchanged, the sender keeps its id and address,
    the win buffer changes only by a push, and the rate limits change at
    most at the sender's id. *)
Theorem message_touches_only_its_sender :
  forall env ws raw s,
    let s' := (step env (Message ws raw) s).1 in
    wss_clients s' = wss_clients s /\
    (forall w, w <> ws -> clients s' !! w = clients s !! w) /\
    (forall w, is_Some (clients s' !! w) <-> is_Some (clients s !! w)) /\
    (forall c, clients s !! ws = Some c ->
       exists c', clients s' !! ws = Some c' /\ id c' = id c /\ ip c' = ip c /\
                  (registered c = true -> c' = c) /\
                  (forall k, k <> id c -> rateLimits s' !! k = rateLimits s !! k)) /\
    (clients s !! ws = None -> s' = s).
Proof.
  intros env ws raw s s'. subst s'. cbn [step]. unfold on_message.
  destruct raw as [|data]; [by eauto 10|].
  destruct (clients s !! ws) as [c|] eqn:Hc; [|done].
  assert (Hsame : forall s1 : State,
            wss_clients s1 = wss_clients s -> clients s1 = clients s ->
            (forall k, k <> id c -> rateLimits s1 !! k = rateLimits s !! k) ->
            wss_clients s1 = wss_clients s /\
            (forall w, w <> ws -> clients s1 !! w = clients s !! w) /\
            (forall w, is_Some (clients s1 !! w) <-> is_Some (clients s !! w)) /\
            (forall c0, Some c = Some c0 ->
               exists c', clients s1 !! ws = Some c' /\ id c' = id c0 /\
                          ip c' = ip c0 /\ (registered c0 = true -> c' = c0) /\
                          (forall k, k <> id c0 ->
                                     rateLimits s1 !! k = rateLimits s !! k)) /\
            (Some c = None -> s1 = s)).
  { intros s1 HW Hcl Hrl. split; [done|]. rewrite Hcl.
    split; [done|]. split; [done|]. split; [|done].
    intros c0 [= <-]. exists c. by rewrite Hc. }
  destruct (data_type data); cbn [fst]; try by apply Hsame.
  - unfold on_register.
    destruct (registered c) eqn:Hreg; [by apply Hsame|].
    repeat case_match; cbn [fst]; try by apply Hsame.
    unfold scheduleOnlineBroadcast. case_match;
      cbn [wss_clients clients rateLimits set_broadcastTimer set_chatHistory set_clients];
      (split; [done|]; split; [by intros w Hw; rewrite lookup_insert_ne|];
       split; [intros w; rewrite lookup_insert_is_Some';
               split; [intros [<- | ?]; [by rewrite Hc | done] | by right]|];
       split; [|done];
       intros c0 [= <-]; eexists; rewrite lookup_insert_eq;
       split; [done|]; by rewrite Hreg).
  - unfold on_chat. destruct (registered c); cbn [negb]; [|by apply Hsame].
    assert (Hrl : forall k, k <> id c ->
              (checkRate (now env) (id c) (rateLimits s)).2 !! k = rateLimits s !! k).
    { intros k Hk. unfold checkRate. cbn [snd]. by rewrite lookup_insert_ne. }
    destruct (checkRate (now env) (id c) (rateLimits s)) as [allowed rl].
    cbn [snd] in Hrl.
    destruct allowed; cbn [negb]; [case_bool_decide|]; by apply Hsame.
  - unfold on_win. repeat case_match; by apply Hsame.
Qed.

(** X11. Only registered sessions speak, and under their own name: every
    chat or win entry that a message makes the server send names the
    sender's id and the sender's nickname, and the sender is registered. *)
Theorem entries_name_their_registered_sender :
  forall env ws raw s w ex e author,
    (CBroadcast (Event e) ex ∈ (step env (Message ws raw) s).2 \/
     CSendTo w (Event e) ∈ (step env (Message ws raw) s).2) ->
    entry_author e = Some author ->
    exists c, clients s !! ws = Some c /\ registered c = true /\
              author = (id c, nickname c).
Proof.
  intros env ws raw s w ex e author Hin Hauthor. cbn [step] in Hin.
  unfold on_message in Hin.
  destruct raw as [|data]; [destruct Hin as [Hin|Hin]; in_list Hin|].
  destruct (clients s !! ws) as [c|] eqn:Hc;
    [|destruct Hin as [Hin|Hin]; in_list Hin].
  exists c. split; [done|].
  destruct (data_type data).
  - unfold on_register in Hin.
    repeat case_match; destruct Hin as [Hin|Hin]; in_list Hin; by simplify_eq/=.
  - unfold on_chat in Hin. destruct (registered c); cbn [negb] in Hin.
    + split; [done|].
      repeat case_match; destruct Hin as [Hin|Hin]; in_list Hin; by simplify_eq/=.
    + destruct Hin as [Hin|Hin]; in_list Hin.
  - unfold on_win in Hin. destruct (registered c); cbn [negb] in Hin.
    + split; [done|].
      repeat case_match; destruct Hin as [Hin|Hin]; in_list Hin; by simplify_eq/=.
    + destruct Hin as [Hin|Hin]; in_list Hin.
  - destruct Hin as [Hin|Hin]; in_list Hin.
  - destruct Hin as [Hin|Hin]; in_list Hin.
Qed.

End DispatcherProperties.

(** ** What the buffers hold *)

Lemma sanitize_markup_free v n : markup_free (sanitize v n).
Proof.
  destruct v as [| | | |s|]; try by constructor.
  unfold sanitize. fold (escapePasses (slice0 n (trim s))).
  rewrite escapePasses_flat_map.
  apply Forall_flat_map, Forall_forall. intros x _. apply escapeUnit_no_markup.
Qed.

Lemma length_sanitize v n : (length (sanitize v n) <= 6 * n)%nat.
Proof.
  destruct v as [| | | |s|]; try (simpl; lia).
  unfold sanitize. fold (escapePasses (slice0 n (trim s))).
  rewrite escapePasses_flat_map.
  pose proof (flat_map_escape_length (slice0 n (trim s))) as Hl.
  unfold slice0 in *. rewrite length_take in Hl. lia.
Qed.

(** The amounts that pass the test of [case 'win'] are the integers from 1
    to 1,000,000. *)
Lemma accepted_amount x :
  let a := Math_floor (num_or_zero x) in
  num_leb a (of_Z 0) || num_gtb a (of_Z 1000000) = false ->
  exists z, a = of_Z z /\ 0 < z <= 1000000 /\
            num_geb a (of_Z 500) = (500 <=? z).
Proof.
  intros a Hpass.
  assert (Hint : (exists z, a = of_Z z) \/ (exists b, a = Infinity b)).
  { subst a. destruct x as [|b|q]; cbn [num_or_zero].
    - left. by exists (Qfloor (inject_Z 0)).
    - right. by exists b.
    - left. destruct (Qeq_bool q 0); eexists; reflexivity. }
  destruct Hint as [[z Hz] | [b Hb]].
  - exists z. rewrite Hz in *. rewrite num_leb_of_Z, num_gtb_of_Z in Hpass.
    apply orb_false_iff in Hpass as [?%Z.leb_gt ?%Z.ltb_ge].
    split; [done|]. split; [lia|]. apply num_geb_of_Z.
  - rewrite Hb in Hpass. by destruct b.
Qed.

Lemma Forall_pushBounded {A} (P : A -> Prop) arr x n :
  Forall P arr -> P x -> Forall P (pushBounded arr x n).
Proof.
  intros Harr Hx. unfold pushBounded.
  assert (Hall : Forall P (arr ++ [x])) by (apply Forall_app; auto).
  case_match; [|done]. destruct (arr ++ [x]); [done|].
  by apply Forall_cons in Hall as [_ ?].
Qed.

Lemma Forall_sliceLast {A} (P : A -> Prop) arr n :
  Forall P arr -> Forall P (sliceLast n arr).
Proof. intros Harr. unfold sliceLast. by apply Forall_drop. Qed.

Lemma length_pushBounded_le {A} (arr : list A) x n :
  (length arr <= n)%nat -> (length (pushBounded arr x n) <= n)%nat.
Proof. intros Hle. rewrite length_pushBounded by done. lia. Qed.

Lemma sanitizeNick_clean_units v :
  Forall (fun c => nick_stripped c = false) (sanitizeNick v).
Proof.
  destruct v as [| | | |s|]; try by constructor.
  apply Forall_trim, Forall_collapseFrom; [done | apply removeAll_clean].
Qed.

Section BufferInvariants.

Context `{Runtime}.

Lemma good_nick_clean n : good_nick n -> clean_nick (Some n).
Proof.
  intros (Hsan & Hlen & _). split.
  - rewrite <- Hsan. cbn [sanitizeNick].
    apply Forall_trim, Forall_collapseFrom; [done | apply removeAll_clean].
  - intros ->. simpl in Hlen. lia.
Qed.

Lemma registered_clean_nick (m : gmap nat ClientInfo) w c :
  registry_ok m -> m !! w = Some c -> registered c = true ->
  clean_nick (nickname c).
Proof.
  intros Hok Hc Hreg.
  destruct (ok_registered _ Hok _ _ Hc Hreg) as [n Hn].
  rewrite Hn. apply good_nick_clean. by eapply (ok_nickname _ Hok).
Qed.

Lemma histories_scheduleOnlineBroadcast s :
  chatHistory (scheduleOnlineBroadcast s) = chatHistory s /\
  winHistory (scheduleOnlineBroadcast s) = winHistory s /\
  rateLimits (scheduleOnlineBroadcast s) = rateLimits s /\
  wss_clients (scheduleOnlineBroadcast s) = wss_clients s.
Proof. unfold scheduleOnlineBroadcast. by case_match. Qed.

Lemma step_buffers env i s :
  registry_ok (clients s) ->
  buffer_change chat_entry_ok MAX_CHAT (chatHistory s) (chatHistory (step env i s).1) /\
  buffer_change win_entry_ok MAX_WINS (winHistory s) (winHistory (step env i s).1).
Proof.
  intros Hok.
  assert (Hsame : forall s1 : State,
            chatHistory s1 = chatHistory s -> winHistory s1 = winHistory s ->
            buffer_change chat_entry_ok MAX_CHAT (chatHistory s) (chatHistory s1) /\
            buffer_change win_entry_ok MAX_WINS (winHistory s) (winHistory s1)).
  { intros s1 -> ->. split; by left. }
  destruct i as [ws remote|ws raw|ws|ws r| | | |]; cbn [step].
  - unfold on_connection. case_match; cbn [fst]; [by apply Hsame|].
    apply Hsame; by rewrite ?(proj1 (histories_scheduleOnlineBroadcast _)),
      ?(proj1 (proj2 (histories_scheduleOnlineBroadcast _))).
  - unfold on_message. destruct raw as [|data]; [by apply Hsame|].
    destruct (clients s !! ws) as [c|] eqn:Hc; [|by apply Hsame].
    destruct (data_type data); try by apply Hsame.
    + unfold on_register. destruct (registered c); [by apply Hsame|].
      set (nick := sanitizeNick _).
      destruct (Nat.ltb_spec (length nick) 2) as [|Hlen]; [by apply Hsame|].
      repeat case_match; try by apply Hsame.
      cbn [fst].
      rewrite (proj1 (histories_scheduleOnlineBroadcast _)),
        (proj1 (proj2 (histories_scheduleOnlineBroadcast _))).
      cbn [chatHistory winHistory set_chatHistory set_clients].
      split; [|by left]. right. right. eexists. split; [|done].
      cbn [chat_entry_ok]. split.
      * subst nick. apply sanitizeNick_clean_units.
      * intros Hn. rewrite Hn in Hlen. simpl in Hlen. lia.
    + unfold on_chat. destruct (registered c) eqn:Hreg; cbn [negb]; [|by apply Hsame].
      destruct (checkRate _ _ _) as [[] rl]; cbn [negb]; [|by apply Hsame].
      case_bool_decide as Htext; [by apply Hsame|].
      cbn [fst chatHistory winHistory set_chatHistory set_rateLimits].
      split; [|by left]. right. right. eexists. split; [|done].
      cbn [chat_entry_ok]. split; [by eapply registered_clean_nick|].
      split; [apply sanitize_markup_free|]. split; [done|].
      apply (length_sanitize _ 200).
    + unfold on_win. destruct (registered c) eqn:Hreg; cbn [negb]; [|by apply Hsame].
      destruct (num_leb _ _ || num_gtb _ _) eqn:Hdrop; [by apply Hsame|].
      destruct (accepted_amount _ Hdrop) as (z & Hz & Hrange & Hbig).
      assert (Hwin : win_entry_ok
                (WinMsg (id c) (nickname c)
                   (Math_floor (num_or_zero (Number (data_amount data))))
                   (sanitize (or_else (data_game data) (JString default_game)) 40)
                   (formatTime env))).
      { cbn [win_entry_ok]. split; [by eapply registered_clean_nick|].
        split; [apply sanitize_markup_free|]. by exists z. }
      rewrite Hbig. destruct (Z.leb_spec 500 z) as [Hge|Hlt];
        cbn [fst chatHistory winHistory set_chatHistory set_winHistory].
      * split; [|right; right; eexists; by split].
        right. right. eexists. split; [|done].
        cbn [chat_entry_ok]. split; [by eapply registered_clean_nick|].
        split; [apply sanitize_markup_free|]. exists z. split; [done | lia].
      * split; [by left|]. right. right. eexists. by split.
  - cbn [clients lib_remove set_wss_clients].
    destruct (clients s !! ws) as [c|] eqn:Hc; [|by apply Hsame].
    unfold on_close. cbn [clients lib_remove set_wss_clients]. rewrite Hc.
    destruct (registered c) eqn:Hreg;
      [destruct (nickname c) as [n|] eqn:Hn; [case_bool_decide as Hne|]|];
      cbn [fst];
      rewrite (proj1 (histories_scheduleOnlineBroadcast _)),
        (proj1 (proj2 (histories_scheduleOnlineBroadcast _)));
      cbn [chatHistory winHistory set_chatHistory set_rateLimits set_clients
             lib_remove set_wss_clients];
      try (split; by left).
    split; [|by left]. right. right. eexists. split; [|done].
    cbn [chat_entry_ok]. rewrite <- Hn. by eapply registered_clean_nick.
  - by apply Hsame.
  - by apply Hsame.
  - by apply Hsame.
  - cbn [fst on_memoryTrim chatHistory winHistory set_chatHistory set_winHistory].
    split; right; by left.
  - by apply Hsame.
Qed.

(** X12. In every reachable state the chat buffer holds at most 40 entries
    and the win buffer at most 50, so an init snapshot, [GET /api/wins] and
    [GET /health] never report more. *)
Theorem buffers_stay_within_their_caps :
  forall s,
    reachable s ->
    (length (chatHistory s) <= MAX_CHAT)%nat /\
    (length (winHistory s) <= MAX_WINS)%nat /\
    (length (api_wins s) <= 20)%nat /\
    ((health s).1.2 <= MAX_WINS)%nat /\ ((health s).2 <= MAX_CHAT)%nat.
Proof.
  intros s Hs.
  assert (Hb : (length (chatHistory s) <= MAX_CHAT)%nat /\
               (length (winHistory s) <= MAX_WINS)%nat).
  { induction Hs as [|env i s Hs [IHc IHw] Hadm]; [simpl; lia|].
    destruct (step_buffers env i s (reachable_registry_ok _ Hs)) as [Hc Hw].
    split.
    - destruct Hc as [-> | [-> | (e & _ & ->)]]; [done| |].
      + rewrite length_sliceLast. lia.
      + by apply length_pushBounded_le.
    - destruct Hw as [-> | [-> | (e & _ & ->)]]; [done| |].
      + rewrite length_sliceLast. lia.
      + by apply length_pushBounded_le. }
  destruct Hb as [Hc Hw]. split; [done|]. split; [done|].
  split; [|done]. unfold api_wins. rewrite length_sliceLast. lia.
Qed.

(** X13. In every reachable state the buffers hold only what the handlers
    made.  The win buffer holds win entries whose amount is an integer from
    1 to 1,000,000; the chat buffer holds chat and system entries, a chat
    text being non-empty, at most 1200 code units long and free of the four
    markup characters, a big-win announcement carrying an amount of at
    least 500.  Every entry names a nickname that has none of the characters
    [sanitizeNick] removes, and every game name is free of markup. *)
Theorem buffers_hold_sanitized_entries :
  forall s,
    reachable s ->
    Forall chat_entry_ok (chatHistory s) /\ Forall win_entry_ok (winHistory s).
Proof.
  intros s Hs.
  induction Hs as [|env i s Hs [IHc IHw] Hadm]; [split; constructor|].
  destruct (step_buffers env i s (reachable_registry_ok _ Hs)) as [Hc Hw].
  split.
  - destruct Hc as [-> | [-> | (e & He & ->)]]; [done| |].
    + by apply Forall_sliceLast.
    + by apply Forall_pushBounded.
  - destruct Hw as [-> | [-> | (e & He & ->)]]; [done| |].
    + by apply Forall_sliceLast.
    + by apply Forall_pushBounded.
Qed.

End BufferInvariants.

Lemma sixChats_reachable : @reachable asciiRuntime sixChats.
Proof.
  unfold sixChats, runFrom. cbn [repeat foldl fst snd].
  do 6 (apply reachable_step; [|exact I]). apply twoSessions_reachable.
Qed.

Lemma buffers_witness :
  (length (chatHistory sixChats) <= MAX_CHAT)%nat.
Proof.
  pose proof (@buffers_stay_within_their_caps asciiRuntime sixChats
                sixChats_reachable) as (Hc & _).
  exact Hc.
Defined.

Lemma sanitized_entries_witness :
  Forall chat_entry_ok (chatHistory sixChats).
Proof.
  pose proof (@buffers_hold_sanitized_entries asciiRuntime sixChats
                sixChats_reachable) as (Hc & _).
  exact Hc.
Defined.

(** ** Sessions, sockets and rate-limit state *)

Lemma wsids_set_readyState ws r W :
  map wsid (set_readyState ws r W) = map wsid W.
Proof.
  unfold set_readyState. rewrite map_map. apply map_ext_in.
  intros x _. by destruct (Nat.eqb_spec (wsid x) ws).
Qed.

Lemma wsids_lib_remove ws s :
  map wsid (wss_clients (lib_remove ws s)) =
    List.filter (fun w => negb (w =? ws)%nat) (map wsid (wss_clients s)).
Proof. unfold lib_remove. cbn [wss_clients set_wss_clients]. by rewrite filter_map_swap. Qed.

Section SessionInvariants.

Context `{Runtime}.

(** What a message may do to the registry and to the rate limits. *)
Lemma on_message_sessions env ws raw s :
  let s' := (on_message env ws raw s).1 in
  wss_clients s' = wss_clients s /\
  (clients s' = clients s \/
   exists c nick, clients s !! ws = Some c /\ registered c = false /\
     clients s' = <[ws := {| id := id c; nickname := Some nick; ip := ip c;
                              registered := true |}]> (clients s)) /\
  (rateLimits s' = rateLimits s \/
   exists c r, clients s !! ws = Some c /\ registered c = true /\
     (1 <= count r)%nat /\ rateLimits s' = <[id c := r]> (rateLimits s)).
Proof.
  unfold on_message.
  destruct raw as [|data]; [by auto|].
  destruct (clients s !! ws) as [c|] eqn:Hc; [|by auto].
  destruct (data_type data); cbn [fst]; try by auto.
  - unfold on_register. destruct (registered c) eqn:Hreg; [by auto|].
    repeat case_match; cbn [fst]; try by auto.
    unfold scheduleOnlineBroadcast. case_match;
      cbn [wss_clients clients rateLimits set_broadcastTimer set_chatHistory
             set_clients];
      (split; [done|]; split; [right; by eauto | by left]).
  - unfold on_chat. destruct (registered c) eqn:Hreg; cbn [negb]; [|by auto].
    assert (Hrl : exists r, (1 <= count r)%nat /\
              (checkRate (now env) (id c) (rateLimits s)).2 =
                <[id c := r]> (rateLimits s)).
    { unfold checkRate. cbn [snd]. eexists. split; [|done]. cbn [count]. lia. }
    destruct (checkRate (now env) (id c) (rateLimits s)) as [allowed rl].
    cbn [snd] in Hrl. destruct Hrl as (r & Hr & ->).
    destruct allowed; cbn [negb]; [case_bool_decide|];
      cbn [fst wss_clients clients rateLimits set_chatHistory set_rateLimits];
      (split; [done|]; split; [by left|]; right; by eauto 6).
  - unfold on_win. repeat case_match; by auto.
Qed.

Lemma sockets_ok_size s :
  sockets_ok s -> (size (clients s) <= length (wss_clients s))%nat.
Proof.
  intros [Hnd Hin].
  rewrite <- length_map_to_list.
  rewrite <- (length_fmap fst (map_to_list (clients s))).
  rewrite <- (length_map wsid (wss_clients s)).
  apply submseteq_length, NoDup_submseteq; [apply NoDup_fst_map_to_list|].
  intros w ([w' c] & -> & Hc%elem_of_map_to_list)%list_elem_of_fmap.
  apply Hin. by eexists.
Qed.

Lemma step_sockets_ok env i s :
  sockets_ok s -> admissible env i s -> sockets_ok (step env i s).1.
Proof.
  intros [Hnd Hin] Hadm.
  destruct i as [ws remote|ws raw|ws|ws r| | | |]; cbn [step]; try done.
  - destruct Hadm as (Hnew & _ & _).
    assert (Hnd' : NoDup (map wsid (wss_clients s) ++ [ws])).
    { apply NoDup_app. split; [done|]. split; [|apply NoDup_singleton].
      intros w (x & Hw & Hx)%list_elem_of_fmap Hws%list_elem_of_singleton.
      apply (Hnew x Hx). congruence. }
    unfold on_connection, sockets_ok. case_match; cbn [fst].
    + split.
      * cbn [wss_clients set_wss_clients]. rewrite wsids_set_readyState.
        unfold lib_add. cbn [wss_clients set_wss_clients]. by rewrite map_app.
      * intros w Hw. cbn [wss_clients set_wss_clients clients lib_add] in *.
        rewrite wsids_set_readyState, map_app. apply elem_of_app. left. by apply Hin.
    + rewrite clients_scheduleOnlineBroadcast.
      rewrite (proj2 (proj2 (proj2 (histories_scheduleOnlineBroadcast _)))).
      cbn [wss_clients clients set_clients lib_add set_wss_clients].
      rewrite map_app. split; [done|].
      intros w [<- | [_ Hw]]%lookup_insert_is_Some; apply elem_of_app.
      * right. by apply list_elem_of_singleton.
      * left. by apply Hin.
  - destruct (on_message_sessions env ws raw s) as (HW & Hcl & _).
    unfold sockets_ok. rewrite HW. split; [done|].
    destruct Hcl as [-> | (c & nick & Hc & _ & ->)]; [done|].
    intros w [<- | [_ Hw]]%lookup_insert_is_Some; apply Hin; by eauto.
  - assert (Hnd' : NoDup (map wsid (wss_clients (lib_remove ws s)))).
    { rewrite wsids_lib_remove.
      by apply NoDup_ListNoDup, List.NoDup_filter, NoDup_ListNoDup. }
    assert (Hin' : forall w, w <> ws -> is_Some (clients s !! w) ->
                     w ∈ map wsid (wss_clients (lib_remove ws s))).
    { intros w Hw Hsome. rewrite wsids_lib_remove.
      apply list_elem_of_In, filter_In. split; [by apply list_elem_of_In, Hin|].
      by apply negb_true_iff, Nat.eqb_neq. }
    cbn [clients lib_remove set_wss_clients].
    destruct (clients s !! ws) as [c|] eqn:Hc.
    + split.
      * unfold on_close. cbn [clients lib_remove set_wss_clients]. rewrite Hc.
        repeat case_match; simplify_eq; cbn [fst];
          by rewrite (proj2 (proj2 (proj2 (histories_scheduleOnlineBroadcast _)))).
      * intros w. rewrite on_close_clients.
        cbn [clients lib_remove set_wss_clients].
        intros [c' [Hw Hc']%lookup_delete_Some].
        assert (wss_clients (on_close env ws (lib_remove ws s)).1 =
                wss_clients (lib_remove ws s)) as ->.
        { unfold on_close. cbn [clients lib_remove set_wss_clients]. rewrite Hc.
          repeat case_match; simplify_eq; cbn [fst];
            by rewrite (proj2 (proj2 (proj2 (histories_scheduleOnlineBroadcast _)))). }
        apply Hin'; [done | by eexists].
    + split; [done|]. cbn [fst clients lib_remove set_wss_clients].
      intros w Hw. apply Hin'; [|done]. intros ->. rewrite Hc in Hw. by destruct Hw.
  - split.
    + cbn [fst wss_clients set_wss_clients]. by rewrite wsids_set_readyState.
    + cbn [fst wss_clients set_wss_clients clients]. by rewrite wsids_set_readyState.
Qed.

(** X14. The hard cap holds over time.  In every reachable state the
    sockets the server holds are distinct, every session belongs to one of
    them, and there are at most 500 sessions, so [GET /health] never reports
    more than 500 clients. *)
Theorem sessions_never_exceed_the_cap :
  forall s,
    reachable s ->
    NoDup (map wsid (wss_clients s)) /\
    (forall w, is_Some (clients s !! w) -> exists x, x ∈ wss_clients s /\ wsid x = w) /\
    (size (clients s) <= length (wss_clients s))%nat /\
    (size (clients s) <= MAX_CLIENTS)%nat /\
    ((health s).1.1.2 <= MAX_CLIENTS)%nat.
Proof.
  intros s Hs.
  assert (Hinv : sockets_ok s /\ (size (clients s) <= MAX_CLIENTS)%nat).
  { induction Hs as [|env i s Hs [IHok IHcap] Hadm].
    - split; [split; [apply NoDup_nil_2 | by intros w [? ?]] |].
      unfold initial. cbn [clients]. rewrite map_size_empty. unfold MAX_CLIENTS. lia.
    - split; [by apply step_sockets_ok|].
      pose proof (sockets_ok_size _ IHok) as Hsize.
      destruct i as [ws remote|ws raw|ws|ws r| | | |]; cbn [step]; try done.
      + destruct Hadm as (_ & Hnew & _).
        unfold on_connection.
        destruct (Nat.ltb_spec MAX_CLIENTS (length (wss_clients (lib_add ws s))))
          as [|Hroom]; cbn [fst]; [done|].
        rewrite clients_scheduleOnlineBroadcast.
        cbn [clients set_clients lib_add set_wss_clients wss_clients] in *.
        rewrite map_size_insert_None by done.
        rewrite length_app in Hroom. simpl in Hroom. lia.
      + destruct (on_message_sessions env ws raw s) as (_ & Hcl & _).
        destruct Hcl as [-> | (c & nick & Hc & _ & ->)]; [done|].
        by rewrite map_size_insert_Some.
      + cbn [clients lib_remove set_wss_clients].
        destruct (clients s !! ws) as [c|] eqn:Hc; [|done].
        rewrite on_close_clients. cbn [clients lib_remove set_wss_clients].
        rewrite map_size_delete_Some by done. lia. }
  destruct Hinv as [[Hnd Hin] Hcap].
  split; [done|]. split; [|split; [by apply sockets_ok_size|by split]].
  intros w Hw. apply Hin in Hw. apply list_elem_of_fmap in Hw as (x & -> & Hx).
  by exists x.
Qed.


Lemma on_close_rateLimits env ws s c :
  clients s !! ws = Some c ->
  rateLimits (on_close env ws s).1 = delete (id c) (rateLimits s) /\
  winHistory (on_close env ws s).1 = winHistory s /\
  wss_clients (on_close env ws s).1 = wss_clients s /\
  broadcastTimer (on_close env ws s).1 = true /\
  (registered c = false ->
   chatHistory (on_close env ws s).1 = chatHistory s /\
   (on_close env ws s).2 = []).
Proof.
  intros Hc. unfold on_close. rewrite Hc.
  destruct (registered c); [destruct (nickname c) as [n|]; [case_bool_decide|]|];
    cbn [fst snd]; unfold scheduleOnlineBroadcast; case_match; by cbn.
Qed.

(** X15. Rate-limit state does not outlive its session.  In every reachable
    state each entry of [rateLimits] belongs to a live, registered session
    and has counted at least one check. *)
Theorem rate_limits_belong_to_live_sessions :
  forall s,
    reachable s ->
    forall k r, rateLimits s !! k = Some r ->
      (1 <= count r)%nat /\
      exists w c, clients s !! w = Some c /\ id c = k /\ registered c = true.
Proof.
  intros s Hs. induction Hs as [|env i s Hs IH Hadm]; [by intros k r Hk|].
  intros k r.
  destruct i as [ws remote|ws raw|ws|ws r0| | | |]; cbn [step]; try apply IH.
  - destruct Hadm as (_ & Hnew & _). unfold on_connection.
    case_match; cbn [fst]; [apply IH|].
    rewrite (proj1 (proj2 (proj2 (histories_scheduleOnlineBroadcast _)))),
      clients_scheduleOnlineBroadcast.
    cbn [rateLimits clients set_clients lib_add set_wss_clients].
    intros Hk. destruct (IH k r Hk) as (Hr & w & c & Hc & Hid & Hreg).
    split; [done|]. exists w, c. split; [|done].
    rewrite lookup_insert_ne; [done|]. intros <-. congruence.
  - destruct (on_message_sessions env ws raw s) as (_ & Hcl & Hrl).
    intros Hk.
    assert (Hold : forall w c, clients s !! w = Some c -> registered c = true ->
                     clients (on_message env ws raw s).1 !! w = Some c).
    { intros w c Hc Hreg.
      destruct Hcl as [-> | (c0 & nick & Hc0 & Hreg0 & ->)]; [done|].
      rewrite lookup_insert_ne; [done|]. intros <-. congruence. }
    destruct Hrl as [Heq | (c & r' & Hc & Hreg & Hr' & Heq)]; rewrite Heq in Hk.
    + destruct (IH k r Hk) as (Hr & w & c & Hc & Hid & Hreg).
      split; [done|]. exists w, c. auto.
    + apply lookup_insert_Some in Hk as [[<- <-] | [_ Hk]].
      * split; [done|]. exists ws, c. auto.
      * destruct (IH k r Hk) as (Hr & w & c1 & Hc1 & Hid & Hreg1).
        split; [done|]. exists w, c1. auto.
  - cbn [clients lib_remove set_wss_clients].
    destruct (clients s !! ws) as [c|] eqn:Hc; [|apply IH].
    rewrite on_close_clients.
    rewrite (proj1 (on_close_rateLimits env ws (lib_remove ws s) c Hc)).
    cbn [clients rateLimits lib_remove set_wss_clients].
    intros [Hne Hk]%lookup_delete_Some.
    destruct (IH k r Hk) as (Hr & w & c1 & Hc1 & Hid & Hreg1).
    split; [done|]. exists w, c1. split; [|done].
    apply lookup_delete_Some. split; [|done]. intros <-. congruence.
  - cbn [fst on_rateSweep rateLimits set_rateLimits clients].
    intros [Hk _]%map_lookup_filter_Some. by apply IH.
Qed.

(** An unregistered session has no nickname yet. *)
Lemma reachable_unregistered_nameless s :
  reachable s ->
  forall w c, clients s !! w = Some c -> registered c = false -> nickname c = None.
Proof.
  intros Hs. induction Hs as [|env i s Hs IH Hadm]; [by intros w c Hc|].
  intros w c.
  destruct i as [ws remote|ws raw|ws|ws r0| | | |]; cbn [step]; try apply IH.
  - unfold on_connection. case_match; cbn [fst]; [apply IH|].
    rewrite clients_scheduleOnlineBroadcast.
    cbn [clients set_clients lib_add set_wss_clients].
    intros [[_ <-] | [_ Hc]]%lookup_insert_Some; [done | by eapply IH].
  - destruct (on_message_sessions env ws raw s) as (_ & Hcl & _).
    destruct Hcl as [-> | (c0 & nick & Hc0 & Hreg0 & ->)]; [apply IH|].
    intros [[_ <-] | [_ Hc]]%lookup_insert_Some; [done | by eapply IH].
  - cbn [clients lib_remove set_wss_clients].
    destruct (clients s !! ws) as [c0|] eqn:Hc0; [|apply IH].
    rewrite on_close_clients. cbn [clients lib_remove set_wss_clients].
    intros [_ Hc]%lookup_delete_Some. by eapply IH.
Qed.

(** X16. The registry of every reachable state.  A session has a nickname
    exactly when it is registered; a nickname is 2 to 24 code units long, is
    left unchanged by [sanitizeNick] and has no reserved name inside its
    lower-case form; no two sessions hold nicknames that are equal up to
    case; no two sessions share an id. *)
Theorem registry_of_a_reachable_state :
  forall s,
    reachable s ->
    (forall w c, clients s !! w = Some c ->
       (registered c = true <-> is_Some (nickname c))) /\
    (forall w c n, clients s !! w = Some c -> nickname c = Some n ->
       (2 <= length n <= 24)%nat /\ sanitizeNick (JString n) = n /\
       forall bad pre post, bad ∈ BAD_NICKS -> toLowerCase n <> pre ++ bad ++ post) /\
    (forall w1 w2 c1 c2 n1 n2,
       clients s !! w1 = Some c1 -> clients s !! w2 = Some c2 ->
       nickname c1 = Some n1 -> nickname c2 = Some n2 ->
       toLowerCase n1 = toLowerCase n2 -> w1 = w2) /\
    (forall w1 w2 c1 c2,
       clients s !! w1 = Some c1 -> clients s !! w2 = Some c2 ->
       id c1 = id c2 -> w1 = w2).
Proof.
  intros s Hs.
  pose proof (reachable_registry_ok _ Hs) as [Hr Hn Hi Hu].
  pose proof (reachable_unregistered_nameless _ Hs) as Hun.
  split; [|split; [|split]].
  - intros w c Hc. split; [by eapply Hr|].
    intros [n Hn']. destruct (registered c) eqn:Hreg; [done|].
    rewrite (Hun _ _ Hc Hreg) in Hn'. done.
  - intros w c n Hc Hn'. destruct (Hn _ _ _ Hc Hn') as (Hsan & Hlen & Hbad).
    split; [done|]. split; [done|].
    intros bad pre post Hin Hlow.
    assert (is_bad_nick n = true); [|congruence].
    unfold is_bad_nick. apply existsb_exists. exists bad.
    split; [by apply list_elem_of_In|]. apply includes_spec. by exists pre, post.
  - done.
  - done.
Qed.

(** X17. A registered session's entry is immutable for the session's
    lifetime: no input other than the close of its own socket changes its
    id, its nickname, its address or its registered flag. *)
Theorem registered_entry_is_immutable :
  forall env i s ws c,
    clients s !! ws = Some c ->
    registered c = true ->
    admissible env i s ->
    i <> Closed ws ->
    clients (step env i s).1 !! ws = Some c.
Proof.
  intros env i s ws c Hc Hreg Hadm Hi.
  destruct i as [w remote|w raw|w|w r0| | | |]; cbn [step]; try done.
  - destruct Hadm as (_ & Hnew & _). unfold on_connection.
    case_match; cbn [fst]; [done|].
    rewrite clients_scheduleOnlineBroadcast.
    cbn [clients set_clients lib_add set_wss_clients].
    rewrite lookup_insert_ne; [done|]. intros ->. congruence.
  - destruct (on_message_sessions env w raw s) as (_ & Hcl & _).
    destruct Hcl as [-> | (c0 & nick & Hc0 & Hreg0 & ->)]; [done|].
    rewrite lookup_insert_ne; [done|]. intros ->. congruence.
  - cbn [clients lib_remove set_wss_clients].
    destruct (clients s !! w) as [c0|] eqn:Hc0; [|done].
    rewrite on_close_clients. cbn [clients lib_remove set_wss_clients].
    rewrite lookup_delete_ne; [done|]. intros ->. done.
Qed.

(** X18. What the close of a socket does, whoever it belonged to.  The
    socket leaves [wss.clients] and the others stay; the session entry, if
    any, is deleted and no other entry changes; the win buffer is untouched.
    For a session, its rate-limit state is deleted and the online broadcast
    is scheduled; when the session was not registered nothing is announced
    and the chat buffer is untouched.  For a socket that never became a
    session (a rejected one) nothing else happens at all. *)
Theorem close_removes_the_session :
  forall env ws s,
    let '(s', calls) := step env (Closed ws) s in
    clients s' = delete ws (clients s) /\
    (forall x, x ∈ wss_clients s' <-> x ∈ wss_clients s /\ wsid x <> ws) /\
    winHistory s' = winHistory s /\
    match clients s !! ws with
    | Some c =>
        rateLimits s' = delete (id c) (rateLimits s) /\
        broadcastTimer s' = true /\
        (registered c = false -> chatHistory s' = chatHistory s /\ calls = [])
    | None => s' = lib_remove ws s /\ calls = []
    end.
Proof.
  intros env ws s. cbn [step]. cbn [clients lib_remove set_wss_clients].
  assert (Hsock : forall x, x ∈ wss_clients (lib_remove ws s) <->
                            x ∈ wss_clients s /\ wsid x <> ws).
  { intros x. unfold lib_remove. cbn [wss_clients set_wss_clients].
    rewrite !list_elem_of_In, filter_In, negb_true_iff, Nat.eqb_neq. done. }
  destruct (clients s !! ws) as [c|] eqn:Hc.
  - assert (Hc' : clients (lib_remove ws s) !! ws = Some c) by done.
    destruct (on_close_rateLimits env ws (lib_remove ws s) c Hc')
      as (Hrl & Hwin & HW & Htimer & Hquiet).
    pose proof (on_close_clients env ws (lib_remove ws s)) as Hcl.
    destruct (on_close env ws (lib_remove ws s)) as [s' calls].
    cbn [fst snd] in *. rewrite HW.
    split; [done|]. split; [exact Hsock|]. split; [done|].
    split; [done|]. by split.
  - split; [symmetry; by apply delete_id|]. split; [exact Hsock|]. by split.
Qed.

End SessionInvariants.


Lemma session_cap_witness : (size (clients twoSessions) <= MAX_CLIENTS)%nat.
Proof.
  pose proof (@sessions_never_exceed_the_cap asciiRuntime twoSessions
                twoSessions_reachable) as (_ & _ & _ & Hcap & _).
  exact Hcap.
Defined.

(** ** Admission *)


Section Admission.

Context `{Runtime}.


End Admission.

(** ** The further theorems at concrete inputs *)

(** The guest asks for a name with a reserved word inside. *)
Lemma reserved_nickname_witness :
  @step asciiRuntime env2 (Message 2%nat (registerAs (lit "Admin1"))) twoSessions =
    (twoSessions, [CSendTo 2%nat (RegisterErr NickForbidden)]).
Proof.
  apply (@reserved_nickname_is_refused asciiRuntime env2 2%nat guest
           {| data_type := TRegister; data_nickname := JString (lit "Admin1");
              data_text := JUndefined; data_amount := JUndefined;
              data_game := JUndefined |} twoSessions (lit "admin") [] (lit "1")).
  - by vm_compute.
  - reflexivity.
  - reflexivity.
  - vm_compute. lia.
  - by vm_compute.
  - by left.
  - reflexivity.
Defined.

(** The chat entry that Alex's message makes names Alex. *)
Lemma entry_author_witness :
  exists c, clients twoSessions !! 1%nat = Some c /\ registered c = true /\
            (7%nat, Some (lit "Alex")) = (id c, nickname c).
Proof.
  apply (@entries_name_their_registered_sender asciiRuntime env2 1%nat
           (chatText (lit "hi")) twoSessions 0%nat None
           (ChatMsg 9 7 (Some (lit "Alex")) (lit "hi") (lit "12:02"))).
  - left. vm_compute. by left.
  - reflexivity.
Defined.

(** After six chats the only rate-limit entry is the one of Alex. *)
Lemma rate_limits_witness :
  (1 <= count {| count := 6; t := 2000 |})%nat /\
  exists w c, clients sixChats !! w = Some c /\ id c = 7%nat /\ registered c = true.
Proof.
  apply (@rate_limits_belong_to_live_sessions asciiRuntime sixChats
           sixChats_reachable 7%nat {| count := 6; t := 2000 |}).
  by vm_compute.
Defined.

(** Alex is registered and named; the guest is neither. *)
Lemma registry_witness :
  (registered alex = true <-> is_Some (nickname alex)) /\
  (registered guest = true <-> is_Some (nickname guest)).
Proof.
  pose proof (@registry_of_a_reachable_state asciiRuntime twoSessions
                twoSessions_reachable) as (Hreg & _).
  split.
  - apply (Hreg 1%nat alex). by vm_compute.
  - apply (Hreg 2%nat guest). by vm_compute.
Defined.

(** A chat of the guest leaves the entry of Alex as it is. *)
Lemma immutable_entry_witness :
  clients (@step asciiRuntime env2 (Message 2%nat (chatText (lit "hi"))) twoSessions).1
    !! 1%nat = Some alex.
Proof.
  apply (@registered_entry_is_immutable asciiRuntime env2
           (Message 2%nat (chatText (lit "hi"))) twoSessions 1%nat alex).
  - by vm_compute.
  - reflexivity.
  - exact I.
  - discriminate.
Defined.

